(** * Upload ingestion and relay control of [htjdg.py]

    A shallow embedding of the two functional cores of the single-file
    application: the [/upload] handler of the FastAPI backend (filename
    sanitising, collision probing, chunked streaming write, cleanup on
    failure) and the start/stop logic of the Streamlit relay controller
    (construction of the [ffmpeg] invocation, the [ffmpeg_proc] slot of the
    session state). *)

From Stdlib Require Import Ascii DecimalString DecimalNat.
From stdpp Require Import gmap strings list fin_maps sorting.

Local Open Scope string_scope.
Local Open Scope list_scope.

(** ** Python string primitives used by the handler *)

Module PyStr.

(** [s[n:]] for a non-negative [n]. *)
Fixpoint drop (n : nat) (s : string) : string :=
  match n, s with
  | O, _ => s
  | S _, EmptyString => EmptyString
  | S n', String _ s' => drop n' s'
  end.

(** [s[:n]] for a non-negative [n]. *)
Fixpoint take (n : nat) (s : string) : string :=
  match n, s with
  | O, _ => EmptyString
  | S _, EmptyString => EmptyString
  | S n', String a s' => String a (take n' s')
  end.

(** [c in s]. *)
Fixpoint mem (c : ascii) (s : string) : bool :=
  match s with
  | EmptyString => false
  | String a s' => Ascii.eqb a c || mem c s'
  end.

(** Left-to-right scan behind [str.rfind]: [i] is the index of the head of
    [s], [last] the best match seen so far. *)
Fixpoint rfind_from (c : ascii) (s : string) (i last : Z) : Z :=
  match s with
  | EmptyString => last
  | String a s' => rfind_from c s' (i + 1) (if Ascii.eqb a c then i else last)
  end.

(** [s.rfind(c)]: the highest index of [c] in [s], or [-1]. *)
Definition rfind (c : ascii) (s : string) : Z := rfind_from c s 0 (-1).

(** [all(ch == c for ch in s)]. *)
Fixpoint all_eq (c : ascii) (s : string) : bool :=
  match s with
  | EmptyString => true
  | String a s' => Ascii.eqb a c && all_eq c s'
  end.

(** [str(n)] for a non-negative integer. *)
Definition str (n : nat) : string := NilEmpty.string_of_uint (Nat.to_uint n).

End PyStr.

(** ** [os.path] (POSIX flavour) *)

Module OsPath.

Definition sep : ascii := "/"%char.
Definition extsep : ascii := "."%char.

(** [i = p.rfind('/') + 1; return p[i:]] *)
Definition basename (p : string) : string :=
  let i := (PyStr.rfind sep p + 1)%Z in
  PyStr.drop (Z.to_nat i) p.

(** [genericpath._splitext]: the extension starts at the last dot, unless
    that dot belongs to the run of leading dots of the last component. *)
Definition splitext (p : string) : string * string :=
  let sepIndex := PyStr.rfind sep p in
  let dotIndex := PyStr.rfind extsep p in
  if (sepIndex <? dotIndex)%Z then
    let lead :=
      PyStr.take (Z.to_nat (dotIndex - (sepIndex + 1)))
                 (PyStr.drop (Z.to_nat (sepIndex + 1)) p) in
    if PyStr.all_eq extsep lead then (p, EmptyString)
    else (PyStr.take (Z.to_nat dotIndex) p, PyStr.drop (Z.to_nat dotIndex) p)
  else (p, EmptyString).

End OsPath.

(** ** [pathlib] paths *)

Module Pathlib.

(** A pure path: whether it starts at the root, and its components. *)
Record Path := mkPath { anchored : bool; parts : list string }.

(** [s.split('/')] *)
Fixpoint split_sep (s : string) : list string :=
  match s with
  | EmptyString => [EmptyString]
  | String a s' =>
      if Ascii.eqb a OsPath.sep then EmptyString :: split_sep s'
      else match split_sep s' with
           | [] => [String a EmptyString]
           | h :: t => String a h :: t
           end
  end.

(** A component survives parsing unless it is empty or a single dot. *)
Definition keeps (c : string) : bool :=
  negb (String.eqb c "" || String.eqb c ".").

(** Parsing of a path string: empty and [.] components are dropped, [..]
    is kept, a leading separator anchors the path at the root. *)
Definition parse (s : string) : Path :=
  {| anchored := match s with
                 | String a _ => Ascii.eqb a OsPath.sep
                 | EmptyString => false
                 end;
     parts := List.filter keeps (split_sep s) |}.

(** [p / s]: an anchored right operand replaces the left one. *)
Definition div (p : Path) (s : string) : Path :=
  let q := parse s in
  if anchored q then q
  else {| anchored := anchored p; parts := parts p ++ parts q |}.

(** [p.name]: the final component, empty when there is none. *)
Definition name (p : Path) : string := List.last (parts p) "".

End Pathlib.

(** ** The file system and the I/O it offers the handler *)

Module Fs.

Import Pathlib.

(** A location is the list of directory entries leading to a node from
    the root; it contains no [.] or [..].  Symbolic links are not
    modelled. *)
Abbreviation loc := (list string).

Inductive node :=
| File (data : list Byte.byte)
| Dir.

(** Faults the environment injects into the I/O calls of one request:
    [open_fault] makes [open] raise, the head of [write_faults] decides
    the next [write] (the call raises when it is [Some e]; an exhausted
    list means no further fault), [unlink_fault] makes [unlink] raise. *)
Record Faults := mkFaults {
  open_fault : option string;
  write_faults : list (option string);
  unlink_fault : option string
}.

(** What the handler did to its environment, oldest event first. *)
Inductive event :=
| EvRead (size : N) (got : list Byte.byte)
| EvOpen (at_ : loc) (ok : bool)
| EvWrite (at_ : loc) (chunk : list Byte.byte) (ok : bool)
| EvUnlink (at_ : loc) (ok : bool).

Record World := mkWorld {
  cwd : loc;
  fs : gmap loc node;
  faults : Faults;
  trace : list event
}.

Definition set_fs (w : World) (m : gmap loc node) : World :=
  {| cwd := cwd w; fs := m; faults := faults w; trace := trace w |}.

Definition set_faults (w : World) (f : Faults) : World :=
  {| cwd := cwd w; fs := fs w; faults := f; trace := trace w |}.

Definition log (e : event) (w : World) : World :=
  {| cwd := cwd w; fs := fs w; faults := faults w; trace := trace w ++ [e] |}.

(** One step of path resolution: [..] climbs (the root is its own
    parent), any other component descends. *)
Definition step (at_ : loc) (c : string) : loc :=
  if String.eqb c ".." then removelast at_ else at_ ++ [c].

(** The location a path denotes for a process whose working directory is
    [wd]. *)
Definition locate (wd : loc) (p : Path) : loc :=
  fold_left step (parts p) (if anchored p then [] else wd).

(** The node at a location; the root is always a directory. *)
Definition node_at (w : World) (l : loc) : option node :=
  match l with
  | [] => Some Dir
  | _ => fs w !! l
  end.

(** [p.exists()], for names the file system can take: an [exists] that
    raises (a name beyond the length limit) is outside this model, and
    [..] is resolved on the path, which is what the file system does
    wherever the directories passed through exist. *)
Definition path_exists (w : World) (p : Path) : bool :=
  match node_at w (locate (cwd w) p) with
  | Some _ => true
  | None => false
  end.

(** Result of a call that may raise: the value, or the message of the
    exception. *)
Inductive res (A : Type) :=
| Ok (a : A)
| Exc (msg : string).
Arguments Ok {A} a.
Arguments Exc {A} msg.

(** [open(p, "wb")]: creates the file or truncates it; returns the handle,
    here the location written to. *)
Definition open_wb (p : Path) (w : World) : res loc * World :=
  let l := locate (cwd w) p in
  match open_fault (faults w) with
  | Some e => (Exc e, log (EvOpen l false) w)
  | None =>
      match l, node_at w (removelast l), node_at w l with
      | [], _, _ => (Exc "[Errno 21] Is a directory", log (EvOpen l false) w)
      | _, _, Some Dir => (Exc "[Errno 21] Is a directory", log (EvOpen l false) w)
      | _, Some Dir, _ => (Ok l, log (EvOpen l true) (set_fs w (<[l := File []]> (fs w))))
      | _, Some (File _), _ => (Exc "[Errno 20] Not a directory", log (EvOpen l false) w)
      | _, None, _ => (Exc "[Errno 2] No such file or directory", log (EvOpen l false) w)
      end
  end.

(** Appending to the node behind a handle; a handle whose file has been
    removed in the meantime writes to nothing visible. *)
Definition append_at (l : loc) (chunk : list Byte.byte) (m : gmap loc node)
  : gmap loc node :=
  match m !! l with
  | Some (File d) => <[l := File (d ++ chunk)]> m
  | _ => m
  end.

(** [out_file.write(chunk)] as the handler sees it: raises when the
    environment says so, else the bytes are taken over by the file object
    and count as contents of the file.  When they reach the file itself
    is the matter of [Buffered] below. *)
Definition write (h : loc) (chunk : list Byte.byte) (w : World) : res unit * World :=
  let f := faults w in
  let w1 := set_faults w {| open_fault := open_fault f;
                            write_faults := tail (write_faults f);
                            unlink_fault := unlink_fault f |} in
  match write_faults f with
  | Some e :: _ => (Exc e, log (EvWrite h chunk false) w1)
  | _ => (Ok tt, log (EvWrite h chunk true) (set_fs w1 (append_at h chunk (fs w1))))
  end.

(** [p.unlink()] *)
Definition unlink (p : Path) (w : World) : res unit * World :=
  let l := locate (cwd w) p in
  match unlink_fault (faults w) with
  | Some e => (Exc e, log (EvUnlink l false) w)
  | None =>
      match l, node_at w l with
      | _ :: _, Some (File _) => (Ok tt, log (EvUnlink l true) (set_fs w (delete l (fs w))))
      | _, Some _ => (Exc "[Errno 21] Is a directory", log (EvUnlink l false) w)
      | _, None => (Exc "[Errno 2] No such file or directory", log (EvUnlink l false) w)
      end
  end.

End Fs.

(** ** The upload handler of the FastAPI backend *)

Module Ingest.

Import Pathlib Fs.

(** [UPLOAD_DIR = Path("./uploads")] *)
Definition UPLOAD_DIR : Path := parse "./uploads".

(** [CHUNK_SIZE = 1024 * 1024 * 4] *)
Definition CHUNK_SIZE : N := (1024 * 1024 * 4)%N.

(** The first [n] elements of a list and the rest. *)
Fixpoint split_at {A : Type} (n : N) (l : list A) : list A * list A :=
  match l with
  | [] => ([], [])
  | x :: l' =>
      if (n =? 0)%N then ([], l)
      else let '(a, b) := split_at (N.pred n) l' in (x :: a, b)
  end.

(** The uploaded part as the handler sees it: the declared file name, the
    bytes not read yet, and how many bytes each of the coming reads is
    willing to deliver (a read never delivers more than it is asked for,
    and delivers at least one byte while data remains; an exhausted
    schedule stands for reads that deliver all that is asked for). *)
Record UploadFile := mkUploadFile {
  filename : string;
  body : list Byte.byte;
  short_reads : list N
}.

(** [file.read(size)] *)
Definition read (f : UploadFile) (size : N) : list Byte.byte * UploadFile :=
  let n := match short_reads f with
           | [] => size
           | r :: _ => N.min size (N.max 1 r)
           end in
  let '(chunk, rest) := split_at n (body f) in
  (chunk, {| filename := filename f; body := rest;
             short_reads := tail (short_reads f) |}).

(** What the endpoint answers: the JSON of a success, or the status and
    detail of the [HTTPException] it raised. *)
Inductive Response :=
| JSONResponse (filename : string) (size_bytes : N)
| HTTPException (status_code : nat) (detail : string).

(** [f"{base}({counter}){ext}"] *)
Definition candidate_name (base ext : string) (counter : nat) : string :=
  base +:+ "(" +:+ PyStr.str counter +:+ ")" +:+ ext.

(** The [while True] probe of lines 80-85, started at [counter]; [None]
    when [fuel] iterations do not reach the [break]. *)
Fixpoint probe (fuel : nat) (w : World) (base ext : string) (counter : nat)
  : option Path :=
  match fuel with
  | O => None
  | S fuel' =>
      let candidate := div UPLOAD_DIR (candidate_name base ext counter) in
      if negb (path_exists w candidate) then Some candidate
      else probe fuel' w base ext (counter + 1)
  end.

(** Lines 74-85: the destination for a sanitised name.  Every entry of
    the file system can block at most one counter, so one more iteration
    than there are entries is all the probe can use. *)
Definition resolve_dest (w : World) (filename : string) : option Path :=
  let dest_path := div UPLOAD_DIR filename in
  if path_exists w dest_path then
    let '(base, ext) := OsPath.splitext filename in
    probe (S (size (fs w))) w base ext 1
  else Some dest_path.

(** The [while True] copy loop of lines 92-97; [None] when [fuel]
    iterations do not reach the [break]. *)
Fixpoint write_loop (fuel : nat) (out_file : loc) (file : UploadFile)
    (total_written : N) (w : World) : option (res N * World) :=
  match fuel with
  | O => None
  | S fuel' =>
      let '(chunk, file') := read file CHUNK_SIZE in
      let w1 := log (EvRead CHUNK_SIZE chunk) w in
      match chunk with
      | [] => Some (Ok total_written, w1)
      | _ :: _ =>
          match write out_file chunk w1 with
          | (Exc e, w2) => Some (Exc e, w2)
          | (Ok _, w2) =>
              write_loop fuel' out_file file'
                         (total_written + N.of_nat (length chunk)) w2
          end
      end
  end.

(** The body of the [try] (lines 91-97).  Every iteration that goes on
    takes at least one byte off the body, so one more iteration than
    there are bytes is all the loop can use. *)
Definition save_stream (dest_path : Path) (file : UploadFile) (w : World)
  : option (res N * World) :=
  match open_wb dest_path w with
  | (Exc e, w1) => Some (Exc e, w1)
  | (Ok out_file, w1) => write_loop (S (length (body file))) out_file file 0 w1
  end.

(** Lines 100-104: removal of what was written, any exception of the
    removal swallowed. *)
Definition cleanup (dest_path : Path) (w : World) : World :=
  if path_exists w dest_path then snd (unlink dest_path w) else w.

(** [upload], lines 70-107. *)
Definition upload (file : UploadFile) (w : World) : option (Response * World) :=
  let filename := OsPath.basename (filename file) in
  if String.eqb filename "" then Some (HTTPException 400 "Missing filename", w)
  else
    match resolve_dest w filename with
    | None => None
    | Some dest_path =>
        match save_stream dest_path file w with
        | None => None
        | Some (Ok total_written, w') =>
            Some (JSONResponse (name dest_path) total_written, w')
        | Some (Exc e, w') =>
            Some (HTTPException 500 ("Failed to save file: " +:+ e),
                  cleanup dest_path w')
        end
    end.

(** The storage directory of a process. *)
Definition storage (w : World) : loc := locate (cwd w) UPLOAD_DIR.

(** The state the module's initialisation leaves behind: the working
    directory and the storage directory under it are directories. *)
Definition ready (w : World) : Prop :=
  node_at w (cwd w) = Some Dir /\ node_at w (storage w) = Some Dir.

(** The path and the location of the candidate with counter [k]. *)
Definition cand_path (base ext : string) (k : nat) : Path :=
  div UPLOAD_DIR (candidate_name base ext k).

Definition cand_loc (w : World) (base ext : string) (k : nat) : loc :=
  storage w ++ [candidate_name base ext k].

(** The shape of the events of one copy loop on the handle [h], the flag
    telling whether the loop ran to its end: every read asks for
    [CHUNK_SIZE] bytes; a read that delivers bytes is followed by the write
    of exactly these bytes and only then by the next read; the read that
    delivers nothing is the last event of a completed loop; a write that
    raises is the last event of an aborted one. *)
Inductive copy_trace (h : loc) : list event -> bool -> Prop :=
| copy_done :
    copy_trace h [EvRead CHUNK_SIZE []] true
| copy_abort (chunk : list Byte.byte) :
    chunk <> [] -> (N.of_nat (length chunk) <= CHUNK_SIZE)%N ->
    copy_trace h [EvRead CHUNK_SIZE chunk; EvWrite h chunk false] false
| copy_step (chunk : list Byte.byte) (t : list event) (completed : bool) :
    chunk <> [] -> (N.of_nat (length chunk) <= CHUNK_SIZE)%N ->
    copy_trace h t completed ->
    copy_trace h (EvRead CHUNK_SIZE chunk :: EvWrite h chunk true :: t) completed.

(** The bytes of the writes that returned, in the order of the events. *)
Fixpoint written (t : list event) : list Byte.byte :=
  match t with
  | [] => []
  | EvWrite _ chunk true :: t' => chunk ++ written t'
  | _ :: t' => written t'
  end.

(** The bytes the reads delivered, in the order of the events. *)
Fixpoint received (t : list event) : list Byte.byte :=
  match t with
  | [] => []
  | EvRead _ got :: t' => got ++ received t'
  | _ :: t' => received t'
  end.

End Ingest.

(** ** The buffered writer behind [out_file]

    [aiofiles.open(dest_path, "wb")] hands out a buffered writer, and the
    handler never calls [flush].  [Fs.write] above is the write as the
    handler sees it: the bytes are accepted by the file object.  This
    module refines it to what has reached the file and what is still in
    the writer's buffer, after [io.BufferedWriter]: a chunk that fits in
    the room left is copied into the buffer; otherwise the buffer is
    written out first, and then the chunk goes to the file directly when
    it is longer than the buffer, into the emptied buffer when not.  A
    write of the raw file appends all its bytes or raises. *)

Module Buffered.

Import Pathlib Fs Ingest.

(** The writer: the file it writes to, the size of its buffer, the bytes
    accepted but not yet written to the file. *)
Record writer := mkWriter {
  target : loc;
  buffer_size : N;
  pending : list Byte.byte
}.

Definition set_pending (o : writer) (data : list Byte.byte) : writer :=
  {| target := target o; buffer_size := buffer_size o; pending := data |}.

(** What happens during the copy, oldest first: a read, a write of the
    raw file, the return of a [write] call or its exception. *)
Inductive bevent :=
| BRead (size : N) (got : list Byte.byte)
| BRaw (data : list Byte.byte) (ok : bool)
| BWrite (chunk : list Byte.byte) (ok : bool).

(** One write of the raw file; the environment decides as for
    [Fs.write] whether it raises. *)
Definition raw_write (l : loc) (data : list Byte.byte) (w : World)
  : res unit * World :=
  let f := faults w in
  let w1 := set_faults w {| open_fault := open_fault f;
                            write_faults := tail (write_faults f);
                            unlink_fault := unlink_fault f |} in
  match write_faults f with
  | Some e :: _ => (Exc e, w1)
  | _ => (Ok tt, set_fs w1 (append_at l data (fs w1)))
  end.

(** Writing out the buffer; nothing to do when it is empty, and the
    bytes stay in the buffer when the raw write raises. *)
Definition flush (o : writer) (w : World)
  : res unit * writer * World * list bevent :=
  match pending o with
  | [] => (Ok tt, o, w, [])
  | _ :: _ =>
      match raw_write (target o) (pending o) w with
      | (Ok _, w1) => (Ok tt, set_pending o [], w1, [BRaw (pending o) true])
      | (Exc e, w1) => (Exc e, o, w1, [BRaw (pending o) false])
      end
  end.

(** [out_file.write(chunk)] *)
Definition write (o : writer) (chunk : list Byte.byte) (w : World)
  : res unit * writer * World * list bevent :=
  let avail := (buffer_size o - N.of_nat (length (pending o)))%N in
  if (N.of_nat (length chunk) <=? avail)%N then
    (Ok tt, set_pending o (pending o ++ chunk), w, [BWrite chunk true])
  else
    match flush o w with
    | (Exc e, o1, w1, ev) => (Exc e, o1, w1, ev ++ [BWrite chunk false])
    | (Ok _, o1, w1, ev) =>
        if (buffer_size o <? N.of_nat (length chunk))%N then
          match raw_write (target o) chunk w1 with
          | (Ok _, w2) => (Ok tt, o1, w2, ev ++ [BRaw chunk true; BWrite chunk true])
          | (Exc e, w2) => (Exc e, o1, w2, ev ++ [BRaw chunk false; BWrite chunk false])
          end
        else (Ok tt, set_pending o1 chunk, w1, ev ++ [BWrite chunk true])
    end.


(** The copy loop of lines 92-97 on the writer; [None] when [fuel]
    iterations do not reach the [break]. *)
Fixpoint write_loop (fuel : nat) (out_file : writer) (file : UploadFile)
    (total_written : N) (w : World)
  : option (res N * writer * World * list bevent) :=
  match fuel with
  | O => None
  | S fuel' =>
      let '(chunk, file') := read file CHUNK_SIZE in
      match chunk with
      | [] => Some (Ok total_written, out_file, w, [BRead CHUNK_SIZE chunk])
      | _ :: _ =>
          match write out_file chunk w with
          | (Exc e, o1, w1, ev) =>
              Some (Exc e, o1, w1, BRead CHUNK_SIZE chunk :: ev)
          | (Ok _, o1, w1, ev) =>
              match write_loop fuel' o1 file'
                               (total_written + N.of_nat (length chunk)) w1 with
              | Some (r, o2, w2, t) =>
                  Some (r, o2, w2, BRead CHUNK_SIZE chunk :: ev ++ t)
              | None => None
              end
          end
      end
  end.






End Buffered.

(** ** The relay controller of the Streamlit script *)

Module Relay.

(** [os.path.join(a, b)] *)
Definition join (a b : string) : string :=
  match b with
  | String c _ =>
      if Ascii.eqb c OsPath.sep then b
      else match a with
           | EmptyString => b
           | _ => if String.eqb (PyStr.drop (String.length a - 1) a) "/"
                  then a +:+ b else a +:+ "/" +:+ b
           end
  | EmptyString =>
      match a with
      | EmptyString => b
      | _ => if String.eqb (PyStr.drop (String.length a - 1) a) "/"
             then a else a +:+ "/"
      end
  end.

(** The loop of [os.path.normpath] over the components, [new_comps] kept
    in reverse. *)
Fixpoint norm_comps (rooted : bool) (comps new_comps : list string) : list string :=
  match comps with
  | [] => rev new_comps
  | comp :: rest =>
      if String.eqb comp "" || String.eqb comp "." then norm_comps rooted rest new_comps
      else if negb (String.eqb comp "..")
              || (negb rooted && bool_decide (new_comps = []))
              || match new_comps with
                 | last :: _ => String.eqb last ".."
                 | [] => false
                 end
           then norm_comps rooted rest (comp :: new_comps)
           else norm_comps rooted rest (tail new_comps)
  end.

(** ['/'.join(comps)] *)
Fixpoint join_sep (comps : list string) : string :=
  match comps with
  | [] => ""
  | [c] => c
  | c :: rest => c +:+ "/" +:+ join_sep rest
  end.

(** [os.path.normpath] *)
Definition normpath (path : string) : string :=
  match path with
  | EmptyString => "."
  | String c rest =>
      let initial_slashes :=
        if Ascii.eqb c OsPath.sep then
          match rest with
          | String c1 (String c2 _) =>
              if Ascii.eqb c1 OsPath.sep && negb (Ascii.eqb c2 OsPath.sep) then 2 else 1
          | String c1 EmptyString => if Ascii.eqb c1 OsPath.sep then 2 else 1
          | EmptyString => 1
          end
        else 0 in
      let comps :=
        norm_comps (negb (Nat.eqb initial_slashes 0)) (Pathlib.split_sep path) [] in
      let joined := join_sep comps in
      match initial_slashes with
      | 0 => match joined with EmptyString => "." | _ => joined end
      | 1 => "/" +:+ joined
      | _ => "//" +:+ joined
      end
  end.

(** One process started by the controller. *)
Record process := mkProcess { argv : list string; alive : bool }.

(** The machine the script runs on: the working directory (its
    components below the root), the processes spawned so far (a process id
    is an index into the list), and whether an [ffmpeg] binary can be
    executed. *)
Record Env := mkEnv {
  cwd : list string;
  procs : list process;
  ffmpeg_on_path : bool
}.

(** [os.getcwd()] *)
Definition getcwd (e : Env) : string := "/" +:+ join_sep (cwd e).

(** [os.path.abspath] *)
Definition abspath (e : Env) (path : string) : string :=
  match path with
  | String c _ =>
      if Ascii.eqb c OsPath.sep then normpath path
      else normpath (join (getcwd e) path)
  | EmptyString => normpath (join (getcwd e) path)
  end.

(** The [ffmpeg_proc] entry of [st.session_state]: the key may be missing,
    hold [None] or hold a [Popen] object, here the process id. *)
Inductive slot :=
| Missing
| PyNone
| Popen (pid : nat).

(** Truth value of [st.session_state.get("ffmpeg_proc")], the test of the
    stop branch. *)
Definition truthy (s : slot) : bool :=
  match s with
  | Popen _ => true
  | _ => false
  end.

(** The widgets' values in one run of the script. *)
Record Inputs := mkInputs {
  selected_file : string;
  stream_key : string;
  is_shorts : bool;
  start_btn : bool;
  stop_btn : bool
}.

(** What a run shows to the operator. *)
Inductive ui :=
| st_error (msg : string)
| st_success (msg : string)
| st_warning (msg : string)
| st_info (msg : string)
| log_box_text (msg : string).

(** Lines 218-222 *)
Definition video_path (e : Env) (i : Inputs) : option string :=
  if negb (String.eqb (selected_file i) "")
     && negb (String.eqb (selected_file i) "-- pilih --")
  then Some (abspath e (join "uploads" (selected_file i)))
  else None.

(** Lines 253-261 *)
Definition build_cmd (video_path stream_key : string) (is_shorts : bool)
  : list string :=
  let scale_arg := if is_shorts then ["-vf"; "scale=720:1280"] else [] in
  let output_url := "rtmp://a.rtmp.youtube.com/live2/" +:+ stream_key in
  ["ffmpeg"; "-re"; "-stream_loop"; "-1"; "-i"; video_path;
   "-c:v"; "libx264"; "-preset"; "veryfast"; "-b:v"; "2500k";
   "-maxrate"; "2500k"; "-bufsize"; "5000k";
   "-g"; "60"; "-keyint_min"; "60";
   "-c:a"; "aac"; "-b:a"; "128k"]
  ++ scale_arg ++ ["-f"; "flv"; output_url].

(** [" ".join(cmd)] *)
Fixpoint join_space (l : list string) : string :=
  match l with
  | [] => ""
  | [c] => c
  | c :: rest => c +:+ " " +:+ join_space rest
  end.

(** [subprocess.Popen(cmd, ...)]: the new process id, or the message of
    the exception when the binary cannot be executed. *)
Definition spawn (cmd : list string) (e : Env) : Fs.res nat * Env :=
  if ffmpeg_on_path e then
    (Fs.Ok (length (procs e)),
     {| cwd := cwd e; procs := procs e ++ [mkProcess cmd true];
        ffmpeg_on_path := ffmpeg_on_path e |})
  else (Fs.Exc "[Errno 2] No such file or directory: 'ffmpeg'", e).

Definition set_dead (p : process) : process := mkProcess (argv p) false.

(** [proc.kill()]; killing a process that has ended already does nothing. *)
Definition kill (pid : nat) (e : Env) : Env :=
  {| cwd := cwd e; procs := alter set_dead pid (procs e);
     ffmpeg_on_path := ffmpeg_on_path e |}.

(** The process ends on its own (crash, end of input, lost connection):
    a step of the environment, not of the controller. *)
Definition exits (pid : nat) (e : Env) : Env :=
  {| cwd := cwd e; procs := alter set_dead pid (procs e);
     ffmpeg_on_path := ffmpeg_on_path e |}.

Definition is_alive (pid : nat) (e : Env) : bool :=
  match procs e !! pid with
  | Some p => alive p
  | None => false
  end.

(** Lines 243-244 *)
Definition init_slot (s : slot) : slot :=
  match s with
  | Missing => PyNone
  | _ => s
  end.

(** ["\n".join(lines)] *)
Fixpoint join_nl (l : list string) : string :=
  match l with
  | [] => ""
  | [c] => c
  | c :: rest => c +:+ String (ascii_of_nat 10) (join_nl rest)
  end.

(** [append_log], lines 237-240: the line joins [log_lines], the box
    shows the last 30 of them. *)
Definition append_log (line : string) (log_lines : list string)
  : list string * ui :=
  let lines := log_lines ++ [line] in
  (lines, log_box_text (join_nl (List.skipn (length lines - 30) lines))).

(** Lines 246-283: the start branch.  The thread that copies the output
    of the process into the log runs beside the script and is not part of
    this model. *)
Definition start (i : Inputs) (s : slot) (e : Env) (log_lines : list string)
  : slot * Env * list string * list ui :=
  match video_path e i with
  | None =>
      (s, e, log_lines,
       [st_error "Pilih file dulu dari dropdown 'File yang tersedia di server'."])
  | Some vp =>
      if String.eqb (stream_key i) "" then
        (s, e, log_lines, [st_error "Masukkan stream key YouTube."])
      else
        let cmd := build_cmd vp (stream_key i) (is_shorts i) in
        let '(lines1, shown1) :=
          append_log ("Menjalankan: " +:+ join_space cmd) log_lines in
        match spawn cmd e with
        | (Fs.Ok pid, e') =>
            (Popen pid, e', lines1,
             [shown1; st_success "Streaming dimulai — periksa log."])
        | (Fs.Exc msg, e') =>
            let '(lines2, shown2) :=
              append_log ("Gagal menjalankan ffmpeg: " +:+ msg) lines1 in
            (s, e', lines2,
             [shown1; shown2;
              st_error "Gagal menjalankan ffmpeg. Pastikan ffmpeg terinstal di PATH."])
        end
  end.

(** Lines 285-293: the stop branch. *)
Definition stop (s : slot) (e : Env) (log_lines : list string)
  : slot * Env * list string * list ui :=
  match s with
  | Popen pid =>
      let '(lines1, shown1) := append_log "ffmpeg dihentikan oleh user." log_lines in
      (PyNone, kill pid e, lines1,
       [st_warning "Streaming dihentikan (ffmpeg killed)."; shown1])
  | _ => (s, e, log_lines, [st_info "Tidak ada proses ffmpeg berjalan."])
  end.

(** One run of the controller part of [run_streamlit_app] (lines 234-293)
    on the session state and the machine. *)
Definition run_streamlit_app (i : Inputs) (s : slot) (e : Env)
  : slot * Env * list ui :=
  let log_lines := [] in
  let s0 := init_slot s in
  let '(s1, e1, lines1, out1) :=
    if start_btn i then start i s0 e log_lines else (s0, e, log_lines, []) in
  let '(s2, e2, _, out2) :=
    if stop_btn i then stop s1 e1 lines1 else (s1, e1, lines1, []) in
  (s2, e2, out1 ++ out2).

(** A series of runs of the script, each with its own widget values, on
    the session state the previous run left; the outputs run by run. *)
Fixpoint reruns (inputs : list Inputs) (s : slot) (e : Env)
  : slot * Env * list (list ui) :=
  match inputs with
  | [] => (s, e, [])
  | i :: rest =>
      let '(s1, e1, out) := run_streamlit_app i s e in
      let '(s2, e2, outs) := reruns rest s1 e1 in
      (s2, e2, out :: outs)
  end.

(** The operator presses only the stop button. *)
Definition stop_only (i : Inputs) : Prop :=
  start_btn i = false /\ stop_btn i = true.

End Relay.

(** ** The listing of the stored files (lines 216-217) *)

Module Listing.

Import Pathlib Fs Ingest.

(** [s <= t] on [str]. *)
Definition str_le (s t : string) : Prop := String.leb s t = true.

#[global] Instance str_le_dec : RelDecision str_le.
Proof. intros s t. unfold str_le. apply _. Defined.

#[global] Instance str_le_total : Total str_le.
Proof. intros s t. apply String.leb_total. Qed.

(** [sorted(names)] *)
Definition sorted (names : list string) : list string := merge_sort str_le names.

(** The name under which the node at [l] is an entry of the directory at
    [dir], if it is one. *)
Definition child_name (dir l : loc) : option string :=
  match rev l with
  | n :: rd => if bool_decide (rev rd = dir) then Some n else None
  | [] => None
  end.

(** [os.listdir(p)]: the names of the entries, files and directories
    alike, in the order the file system hands them out. *)
Definition listdir (p : Path) (w : World) : res (list string) :=
  let d := locate (cwd w) p in
  match node_at w d with
  | Some Dir => Ok (omap (child_name d) (map_to_list (fs w)).*1)
  | Some (File _) => Exc "[Errno 20] Not a directory"
  | None => Exc "[Errno 2] No such file or directory"
  end.

(** [files = sorted(os.listdir("uploads"))] *)
Definition files (w : World) : res (list string) :=
  match listdir (parse "uploads") w with
  | Ok names => Ok (sorted names)
  | Exc e => Exc e
  end.

(** The options of the select box. *)
Definition options (w : World) : res (list string) :=
  match files w with
  | Ok names => Ok ("-- pilih --" :: names)
  | Exc e => Exc e
  end.

End Listing.

(** ** The launcher (lines 308-347) *)

Module Launcher.

(** [STREAMLIT_PORT = 8501] *)
Definition STREAMLIT_PORT : nat := N.to_nat 8501.

(** What one turn of the supervision loop meets: the child still
    running, the child ended, or a [KeyboardInterrupt] during the sleep. *)
Inductive tick :=
| StillRunning
| HasEnded
| CtrlC.

(** What the launcher does, in order; times in milliseconds. *)
Inductive action :=
| RunStreamlitApp
| Print (msg : string)
| StartFastapiThread
| Sleep (ms : N)
| SpawnStreamlit (cmd : list string)
| Poll
| Terminate (raised : bool).

(** The [while True] of lines 333-338 with its [except]; [None] when the
    ticks given do not bring the loop to an end. *)
Fixpoint supervise (ticks : list tick) : option (list action) :=
  match ticks with
  | [] => None
  | StillRunning :: rest =>
      match supervise rest with
      | Some t => Some (Sleep 1000 :: Poll :: t)
      | None => None
      end
  | HasEnded :: _ => Some [Sleep 1000; Poll; Print "Streamlit process ended."]
  | CtrlC :: _ => Some [Sleep 1000; Print "Interrupted — shutting down."]
  end.

(** [main]: [argv] is [sys.argv], [executable] is [sys.executable],
    [file] is [__file__], [pid] the process id the child gets, [ticks]
    what the supervision meets, [terminate_raises] whether
    [streamlit_proc.terminate()] raises. *)
Definition main (argv : list string) (executable file : string) (pid : nat)
    (ticks : list tick) (terminate_raises : bool) : option (list action) :=
  if bool_decide ("--streamlit" ∈ argv) then Some [RunStreamlitApp]
  else
    let cmd := [executable; "-m"; "streamlit"; "run"; file; "--"; "--streamlit";
                "--server.port"; PyStr.str STREAMLIT_PORT] in
    match supervise ticks with
    | None => None
    | Some t =>
        Some ([Print "Launcher: starting FastAPI backend thread...";
               StartFastapiThread;
               Sleep 1200;
               Print "Launcher: starting Streamlit process...";
               SpawnStreamlit cmd;
               Print ("Streamlit launched (PID " +:+ PyStr.str pid
                      +:+ "). Visit http://localhost:"
                      +:+ PyStr.str STREAMLIT_PORT)]
              ++ t
              ++ [Terminate terminate_raises; Print "Launcher exiting."])
    end.

End Launcher.

(** ** Notions used to state the properties *)

Module Notions.

Import PyStr OsPath Pathlib Fs Ingest.

(** The declared name only matters through the data of the request. *)
Definition with_name (f : UploadFile) (n : string) : UploadFile :=
  mkUploadFile n (body f) (short_reads f).

(** A component as directory listings and working directories have them:
    no separator, not empty, not one of the two special names. *)
Definition proper (c : string) : Prop :=
  mem sep c = false /\ c <> "" /\ c <> "." /\ c <> "..".

(** Requests handled one after the other, each on the file system the
    previous one left. *)
Fixpoint uploads (requests : list UploadFile) (w : World)
  : option (list Response * World) :=
  match requests with
  | [] => Some ([], w)
  | file :: rest =>
      match upload file w with
      | None => None
      | Some (resp, w1) =>
          match uploads rest w1 with
          | None => None
          | Some (resps, w2) => Some (resp :: resps, w2)
          end
      end
  end.

(** An environment that fails neither an open nor a write. *)
Definition quiet (w : World) : Prop :=
  open_fault (faults w) = None
  /\ forall e, ~ In (Some e) (write_faults (faults w)).

(** The name the [m]-th upload of a name gets: the name itself, then
    the candidates in the order of their counters. *)
Definition nth_name (fn : string) (m : nat) : string :=
  match m with
  | O => fn
  | S _ => candidate_name (splitext fn).1 (splitext fn).2 m
  end.

(** The state after [m] uploads of [fn]: the first [m] names are taken,
    the others free. *)
Definition taken_up_to (fn : string) (m : nat) (w : World) : Prop :=
  ready w /\ quiet w
  /\ (forall j, j < m -> is_Some (fs w !! (storage w ++ [nth_name fn j])))
  /\ (forall j, m <= j -> fs w !! (storage w ++ [nth_name fn j]) = None).

(** The handle in the slot, if any, is the id of a process of the table. *)
Definition valid (s : Relay.slot) (e : Relay.Env) : Prop :=
  forall pid, s = Relay.Popen pid -> pid < length (Relay.procs e).

(** No button is pressed in the run. *)
Definition no_button (i : Relay.Inputs) : Prop :=
  Relay.start_btn i = false /\ Relay.stop_btn i = false.

End Notions.

(** Sample worlds and requests for the upload endpoint. *)
Module IngestExamples.

Import Pathlib Fs Ingest.

Definition b (n : nat) : Byte.byte :=
  match Byte.of_nat n with Some x => x | None => Byte.x00 end.

Definition quiet : Faults := mkFaults None [] None.

Definition w0 : World :=
  mkWorld ["srv"] (<[ ["srv"] := Dir ]> (<[ ["srv"; "uploads"] := Dir ]> ∅)) quiet [].

Definition w1 : World :=
  set_fs w0 (<[ ["srv"; "uploads"; "video.mp4"] := File [b 7] ]> (fs w0)).

Definition w2 : World :=
  set_fs w1 (<[ ["srv"; "uploads"; "video(1).mp4"] := File [] ]> (fs w1)).

Definition req (fname : string) (data : list Byte.byte) : UploadFile :=
  mkUploadFile fname data [].

Definition enospc : string := "[Errno 28] No space left on device".

(** The second write of the request fails. *)
Definition w_full : World :=
  set_faults w0 (mkFaults None [None; Some enospc] None).

(** The second write fails, and so does the removal. *)
Definition w_full_stuck : World :=
  set_faults w0 (mkFaults None [None; Some enospc] (Some "[Errno 13] Permission denied")).

(** A request whose reads deliver two bytes at a time. *)
Definition req_slow (fname : string) (data : list Byte.byte) : UploadFile :=
  mkUploadFile fname data [2; 2; 2; 2]%N.

(** No fault at all, under the name the checks use. *)
Definition quiet_faults : Faults := quiet.

(** [a.bin] has just been opened for writing. *)
Definition w_open : World :=
  set_fs w0 (<[ ["srv"; "uploads"; "a.bin"] := File [] ]> (fs w0)).

(** The world a first upload of [video.mp4] leaves behind. *)
Definition w0_after : World :=
  match upload (req "video.mp4" [b 1]) w0 with
  | Some (_, w) => w
  | None => w0
  end.

End IngestExamples.

(** Sample machines and widget values for the relay controller. *)
Module RelayExamples.

Import Relay.

Definition e0 : Env := mkEnv ["srv"; "app"] [] true.

Definition click_start : Inputs := mkInputs "video.mp4" "abcd-1234" false true false.

Definition click_start_shorts : Inputs :=
  mkInputs "video.mp4" "abcd-1234" true true false.

Definition click_stop : Inputs := mkInputs "video.mp4" "abcd-1234" false false true.

Definition idle : Inputs := mkInputs "video.mp4" "abcd-1234" false false false.

(** A machine whose working directory is that of the sample worlds of
    the upload endpoint. *)
Definition e_srv : Env := mkEnv ["srv"] [] true.

(** The placeholder is what is selected. *)
Definition pick_placeholder : Inputs :=
  mkInputs "-- pilih --" "abcd-1234" false true false.

(** The machine after two starts in a row. *)
Definition two_started : Env :=
  (run_streamlit_app click_start
     (run_streamlit_app click_start Missing e0).1.1
     (run_streamlit_app click_start Missing e0).1.2).1.2.

End RelayExamples.

(** ** Sanity checks of the model on concrete inputs *)

Example basename_traversal : OsPath.basename "../../etc/passed.mp4" = "passed.mp4".
Proof. reflexivity. Qed.

Example basename_trailing_sep : OsPath.basename "dir/" = "".
Proof. reflexivity. Qed.

Example basename_dotdot : OsPath.basename "a/.." = "..".
Proof. reflexivity. Qed.

Example splitext_video : OsPath.splitext "video.mp4" = ("video", ".mp4").
Proof. reflexivity. Qed.

Example splitext_hidden : OsPath.splitext ".bashrc" = (".bashrc", "").
Proof. reflexivity. Qed.

Example splitext_two_dots : OsPath.splitext "a.tar.gz" = ("a.tar", ".gz").
Proof. reflexivity. Qed.

Example splitext_leading_dots : OsPath.splitext "..a.b" = ("..a", ".b").
Proof. reflexivity. Qed.

Example str_twelve : PyStr.str 12 = "12".
Proof. reflexivity. Qed.

Example parse_relative :
  Pathlib.parse "./uploads" = Pathlib.mkPath false ["uploads"].
Proof. reflexivity. Qed.

Example div_unsanitised_escapes :
  Pathlib.div (Pathlib.parse "./uploads") "../../etc/passed.mp4"
  = Pathlib.mkPath false ["uploads"; ".."; ".."; "etc"; "passed.mp4"].
Proof. reflexivity. Qed.

Example div_absolute_replaces :
  Pathlib.div (Pathlib.parse "./uploads") "/etc/passwd"
  = Pathlib.mkPath true ["etc"; "passwd"].
Proof. reflexivity. Qed.

Section IngestChecks.

Import Pathlib Fs Ingest IngestExamples.

Example upload_fresh :
  fst <$> upload (req "video.mp4" [b 1; b 2; b 3]) w0
  = Some (JSONResponse "video.mp4" 3).
Proof. vm_compute. reflexivity. Qed.

Example upload_collides_once :
  fst <$> upload (req "video.mp4" [b 1]) w1 = Some (JSONResponse "video(1).mp4" 1).
Proof. vm_compute. reflexivity. Qed.

Example upload_collides_twice :
  fst <$> upload (req "video.mp4" [b 1]) w2 = Some (JSONResponse "video(2).mp4" 1).
Proof. vm_compute. reflexivity. Qed.

Example upload_traversal :
  fst <$> upload (req "../../etc/passed.mp4" [b 1]) w0
  = Some (JSONResponse "passed.mp4" 1).
Proof. vm_compute. reflexivity. Qed.

Example upload_dotdot :
  fst <$> upload (req "x/.." [b 1]) w0 = Some (JSONResponse "..(1)" 1).
Proof. vm_compute. reflexivity. Qed.

Example upload_no_name :
  upload (req "dir/" [b 1]) w0 = Some (HTTPException 400 "Missing filename", w0).
Proof. vm_compute. reflexivity. Qed.

End IngestChecks.

(** ** Facts about the string primitives *)

Section StringFacts.

Import PyStr.

Lemma app_cons (a : ascii) (s t : string) :
  String a s +:+ t = String a (s +:+ t).
Proof. reflexivity. Qed.

Lemma app_empty_l (t : string) : "" +:+ t = t.
Proof. reflexivity. Qed.

Lemma app_empty_r (s : string) : s +:+ "" = s.
Proof. induction s as [|a s IH]; [reflexivity|]. now rewrite app_cons, IH. Qed.

Lemma app_length (s t : string) :
  String.length (s +:+ t) = String.length s + String.length t.
Proof.
  induction s as [|a s IH]; [reflexivity|]. rewrite app_cons. simpl. now rewrite IH.
Qed.

Lemma take_drop (n : nat) (s : string) : take n s +:+ drop n s = s.
Proof.
  revert n; induction s as [|a s IH]; intros [|n]; simpl; try reflexivity.
  now rewrite app_cons, IH.
Qed.

Lemma mem_app (c : ascii) (s t : string) :
  mem c (s +:+ t) = mem c s || mem c t.
Proof.
  induction s as [|a s IH]; [reflexivity|].
  rewrite app_cons. simpl. rewrite IH. now rewrite orb_assoc.
Qed.

Lemma mem_drop (c : ascii) (n : nat) (s : string) :
  mem c s = false -> mem c (drop n s) = false.
Proof.
  revert n; induction s as [|a s IH]; intros [|n] H; simpl in *; try assumption.
  apply orb_false_iff in H as [_ H]. now apply IH.
Qed.

Lemma mem_take (c : ascii) (n : nat) (s : string) :
  mem c s = false -> mem c (take n s) = false.
Proof.
  revert n; induction s as [|a s IH]; intros [|n] H; simpl in *; try reflexivity.
  apply orb_false_iff in H as [Ha H]. rewrite Ha. now apply IH.
Qed.

(** [rfind] returns either the default, and then the character does not
    occur, or an index behind which it does not occur again. *)
Lemma rfind_from_spec (c : ascii) (s : string) (i last : Z) :
  (rfind_from c s i last = last /\ mem c s = false)
  \/ ((i <= rfind_from c s i last)%Z
      /\ mem c (drop (S (Z.to_nat (rfind_from c s i last - i))) s) = false).
Proof.
  revert i last; induction s as [|a s IH]; intros i last; simpl.
  - now left.
  - destruct (IH (i + 1)%Z (if Ascii.eqb a c then i else last)) as [[Hr Hm]|[Hle Hm]].
    + rewrite Hr. destruct (Ascii.eqb a c) eqn:Hac; simpl.
      * right. split; [lia|]. now replace (i - i)%Z with 0%Z by lia.
      * now left.
    + right. split; [lia|].
      set (r := rfind_from c s (i + 1) (if Ascii.eqb a c then i else last)) in *.
      replace (Z.to_nat (r - i)) with (S (Z.to_nat (r - (i + 1)))) by lia.
      exact Hm.
Qed.

Lemma str_right_cancel (s1 s2 t : string) : s1 +:+ t = s2 +:+ t -> s1 = s2.
Proof.
  revert s2; induction s1 as [|a s1 IH]; intros [|a' s2] H;
    rewrite ?app_cons, ?app_empty_l in H.
  - reflexivity.
  - apply (f_equal String.length) in H. simpl in H. rewrite app_length in H. lia.
  - apply (f_equal String.length) in H. simpl in H. rewrite app_length in H. lia.
  - injection H as -> H. f_equal. now apply IH.
Qed.

Lemma str_left_cancel (s t1 t2 : string) : s +:+ t1 = s +:+ t2 -> t1 = t2.
Proof.
  induction s as [|a s IH]; rewrite ?app_cons, ?app_empty_l; intros H; [assumption|].
  injection H as H. now apply IH.
Qed.

(** Decimal numerals are injective. *)
Lemma str_inj (n m : nat) : str n = str m -> n = m.
Proof.
  unfold str. intros H.
  apply DecimalNat.Unsigned.to_uint_inj.
  assert (Hs : Some (Nat.to_uint n) = Some (Nat.to_uint m)).
  { rewrite <- (NilEmpty.usu (Nat.to_uint n)), <- (NilEmpty.usu (Nat.to_uint m)).
    now rewrite H. }
  now injection Hs.
Qed.

(** Decimal numerals consist of digits: in particular they contain no
    separator. *)
Lemma str_no_sep (n : nat) : mem OsPath.sep (str n) = false.
Proof.
  unfold str. induction (Nat.to_uint n) as [|d IH|d IH|d IH|d IH|d IH|d IH|d IH|d IH|d IH|d IH];
    simpl; try reflexivity; exact IH.
Qed.

End StringFacts.

(** ** Facts about [os.path] *)

Section OsPathFacts.

Import PyStr OsPath.

(** The base name never contains a separator. *)
Lemma basename_no_sep (p : string) : mem sep (basename p) = false.
Proof.
  unfold basename, rfind.
  destruct (rfind_from_spec sep p 0 (-1)) as [[Hr Hm]|[Hle Hm]].
  - rewrite Hr. simpl. exact Hm.
  - set (r := rfind_from sep p 0 (-1)) in *.
    replace (Z.to_nat (r + 1)) with (S (Z.to_nat (r - 0))) by lia.
    exact Hm.
Qed.

(** [splitext] cuts its argument in two. *)
Lemma splitext_concat (p base ext : string) :
  splitext p = (base, ext) -> base +:+ ext = p.
Proof.
  unfold splitext.
  destruct (_ <? _)%Z; [destruct (all_eq _ _)|]; intros [= <- <-].
  - apply app_empty_r.
  - apply take_drop.
  - apply app_empty_r.
Qed.

Lemma splitext_no_sep (p base ext : string) :
  mem sep p = false -> splitext p = (base, ext) ->
  mem sep base = false /\ mem sep ext = false.
Proof.
  intros Hp. unfold splitext.
  destruct (_ <? _)%Z; [destruct (all_eq _ _)|]; intros [= <- <-]; split;
    auto using mem_take, mem_drop.
Qed.

End OsPathFacts.

(** ** Facts about paths and their resolution *)

Section PathFacts.

Import PyStr Pathlib Fs Ingest.

Lemma split_sep_plain (s : string) :
  mem OsPath.sep s = false -> split_sep s = [s].
Proof.
  induction s as [|a s IH]; simpl; intros H; [reflexivity|].
  apply orb_false_iff in H as [Ha H]. rewrite Ha, (IH H). reflexivity.
Qed.

(** A name without separator that is neither empty nor a dot is a path
    of one component. *)
Lemma parse_plain (s : string) :
  mem OsPath.sep s = false -> s <> "" -> s <> "." ->
  parse s = mkPath false [s].
Proof.
  intros Hs Hne Hdot. unfold parse. rewrite (split_sep_plain s Hs). simpl.
  assert (Hk : keeps s = true).
  { unfold keeps. apply negb_true_iff, orb_false_iff.
    split; apply String.eqb_neq; assumption. }
  rewrite Hk. f_equal.
  destruct s as [|a s]; [reflexivity|]. simpl in Hs.
  now apply orb_false_iff in Hs as [-> _].
Qed.

Lemma div_upload_dir_plain (s : string) :
  mem OsPath.sep s = false -> s <> "" -> s <> "." ->
  div UPLOAD_DIR s = mkPath false ["uploads"; s].
Proof.
  intros Hs Hne Hdot. unfold div. now rewrite (parse_plain s Hs Hne Hdot).
Qed.

Lemma storage_eq (w : World) : storage w = cwd w ++ ["uploads"].
Proof. reflexivity. Qed.

(** A plain name other than [..] denotes an entry of the storage
    directory. *)
Lemma locate_plain (w : World) (s : string) :
  s <> ".." ->
  locate (cwd w) (mkPath false ["uploads"; s]) = storage w ++ [s].
Proof.
  intros Hs. rewrite storage_eq. unfold locate. simpl. unfold step at 2. simpl.
  unfold step. now apply String.eqb_neq in Hs as ->.
Qed.

Lemma storage_child_nonempty (w : World) (s : string) : storage w ++ [s] <> [].
Proof. intros H. now apply app_eq_nil in H as [_ H]. Qed.

Lemma node_at_child (w : World) (s : string) :
  node_at w (storage w ++ [s]) = fs w !! (storage w ++ [s]).
Proof.
  unfold node_at. destruct (storage w ++ [s]) eqn:E; [|reflexivity].
  now apply storage_child_nonempty in E.
Qed.

(** The generated names: plain, and never one of the special ones. *)
Lemma candidate_has_paren (base ext : string) (k : nat) :
  mem "("%char (candidate_name base ext k) = true.
Proof.
  unfold candidate_name. rewrite !mem_app. simpl. now rewrite orb_true_r.
Qed.

Lemma candidate_no_sep (base ext : string) (k : nat) :
  mem OsPath.sep base = false -> mem OsPath.sep ext = false ->
  mem OsPath.sep (candidate_name base ext k) = false.
Proof.
  intros Hb He. unfold candidate_name.
  rewrite !mem_app, Hb, He, str_no_sep. reflexivity.
Qed.

Lemma candidate_not_special (base ext : string) (k : nat) (s : string) :
  mem "("%char s = false -> candidate_name base ext k <> s.
Proof.
  intros Hs E. pose proof (candidate_has_paren base ext k) as H.
  rewrite E in H. congruence.
Qed.

Lemma candidate_inj (base ext : string) (j k : nat) :
  candidate_name base ext j = candidate_name base ext k -> j = k.
Proof.
  unfold candidate_name. intros H.
  apply str_left_cancel, str_left_cancel in H.
  apply str_inj. eapply str_right_cancel. exact H.
Qed.

(** Where a candidate lives. *)
Lemma candidate_locate (w : World) (base ext : string) (k : nat) :
  mem OsPath.sep base = false -> mem OsPath.sep ext = false ->
  div UPLOAD_DIR (candidate_name base ext k)
    = mkPath false ["uploads"; candidate_name base ext k]
  /\ locate (cwd w) (div UPLOAD_DIR (candidate_name base ext k))
    = storage w ++ [candidate_name base ext k].
Proof.
  intros Hb He.
  assert (Hd : div UPLOAD_DIR (candidate_name base ext k)
               = mkPath false ["uploads"; candidate_name base ext k]).
  { apply div_upload_dir_plain.
    - now apply candidate_no_sep.
    - now apply candidate_not_special.
    - now apply candidate_not_special. }
  split; [exact Hd|]. rewrite Hd. apply locate_plain.
  now apply candidate_not_special.
Qed.

Lemma candidate_exists (w : World) (base ext : string) (k : nat) :
  mem OsPath.sep base = false -> mem OsPath.sep ext = false ->
  path_exists w (div UPLOAD_DIR (candidate_name base ext k))
  = bool_decide (is_Some (fs w !! (storage w ++ [candidate_name base ext k]))).
Proof.
  intros Hb He. unfold path_exists.
  destruct (candidate_locate w base ext k Hb He) as [_ ->].
  rewrite node_at_child.
  destruct (fs w !! _) eqn:E.
  - symmetry. apply bool_decide_eq_true. eauto.
  - symmetry. apply bool_decide_eq_false. intros [x Hx]. congruence.
Qed.

End PathFacts.

(** ** The collision probe *)

Section ProbeFacts.

Import PyStr Pathlib Fs Ingest.

Variable w : World.
Variables base ext : string.
Hypothesis base_plain : mem OsPath.sep base = false.
Hypothesis ext_plain : mem OsPath.sep ext = false.

Local Abbreviation cand_path := (Ingest.cand_path base ext).
Local Abbreviation cand_loc := (Ingest.cand_loc w base ext).

Lemma cand_loc_inj (j k : nat) : cand_loc j = cand_loc k -> j = k.
Proof.
  unfold cand_loc. intros H. apply app_inv_head in H.
  injection H as H. now apply candidate_inj in H.
Qed.

Lemma cand_exists_true (k : nat) :
  path_exists w (cand_path k) = true <-> is_Some (fs w !! cand_loc k).
Proof.
  unfold cand_path, cand_loc. rewrite candidate_exists by assumption.
  apply bool_decide_eq_true.
Qed.

Lemma cand_exists_false (k : nat) :
  path_exists w (cand_path k) = false <-> fs w !! cand_loc k = None.
Proof.
  unfold cand_path, cand_loc. rewrite candidate_exists by assumption.
  rewrite bool_decide_eq_false. rewrite <- eq_None_not_Some. reflexivity.
Qed.

(** A probe that gives up has seen every counter it tried taken. *)
Lemma probe_none (fuel c : nat) :
  probe fuel w base ext c = None ->
  forall j, c <= j < c + fuel -> path_exists w (cand_path j) = true.
Proof.
  revert c; induction fuel as [|fuel IH]; intros c H j Hj; [lia|].
  simpl in H. fold (cand_path c) in H.
  destruct (path_exists w (cand_path c)) eqn:E; simpl in H; [|discriminate].
  destruct (decide (j = c)) as [->|Hne]; [exact E|].
  apply (IH (c + 1)); [exact H|lia].
Qed.

(** A probe that answers, answers with the least free counter. *)
Lemma probe_some (fuel c : nat) (p : Path) :
  probe fuel w base ext c = Some p ->
  exists k, c <= k < c + fuel /\ p = cand_path k
            /\ path_exists w (cand_path k) = false
            /\ forall j, c <= j < k -> path_exists w (cand_path j) = true.
Proof.
  revert c; induction fuel as [|fuel IH]; intros c H; [discriminate|].
  simpl in H. fold (cand_path c) in H.
  destruct (path_exists w (cand_path c)) eqn:E; simpl in H.
  - destruct (IH (c + 1) H) as (k & Hk & -> & Hfree & Hmin).
    exists k. repeat split; try lia; try assumption.
    intros j Hj. destruct (decide (j = c)) as [->|Hne]; [exact E|].
    apply Hmin. lia.
  - injection H as <-. exists c. repeat split; try lia; try assumption.
Qed.

(** The answer does not depend on the fuel once there is enough of it. *)
Lemma probe_enough (fuel c k : nat) :
  c <= k < c + fuel ->
  path_exists w (cand_path k) = false ->
  (forall j, c <= j < k -> path_exists w (cand_path j) = true) ->
  probe fuel w base ext c = Some (cand_path k).
Proof.
  revert c; induction fuel as [|fuel IH]; intros c Hk Hfree Hmin; [lia|].
  simpl. fold (cand_path c).
  destruct (decide (k = c)) as [->|Hne].
  - now rewrite Hfree.
  - rewrite (Hmin c) by lia. simpl. apply IH; [lia|assumption|].
    intros j Hj. apply Hmin. lia.
Qed.

(** Pigeonhole: the entries of the file system cannot take one counter
    more than there are entries. *)
Lemma probe_pigeonhole :
  ~ (forall j, 1 <= j < 1 + S (size (fs w)) -> path_exists w (cand_path j) = true).
Proof.
  intros Hall.
  set (l := cand_loc <$> seq 1 (S (size (fs w)))).
  assert (Hnd : NoDup l).
  { apply NoDup_fmap_2; [intros j k; apply cand_loc_inj|apply NoDup_seq]. }
  assert (Hsub : list_to_set l ⊆ dom (fs w)).
  { intros x Hx. apply elem_of_list_to_set in Hx.
    apply list_elem_of_fmap in Hx as (j & -> & Hj).
    apply elem_of_seq in Hj. apply elem_of_dom, cand_exists_true, Hall. lia. }
  apply subseteq_size in Hsub.
  rewrite size_list_to_set, size_dom in Hsub by exact Hnd.
  unfold l in Hsub. rewrite length_fmap, length_seq in Hsub. lia.
Qed.

(** The fuel [resolve_dest] hands to the probe is enough. *)
Lemma probe_total :
  exists k, 1 <= k <= S (size (fs w))
            /\ path_exists w (cand_path k) = false
            /\ (forall j, 1 <= j < k -> path_exists w (cand_path j) = true)
            /\ forall fuel, k <= fuel -> probe fuel w base ext 1 = Some (cand_path k).
Proof.
  destruct (probe (S (size (fs w))) w base ext 1) as [p|] eqn:E.
  - destruct (probe_some _ _ _ E) as (k & Hk & -> & Hfree & Hmin).
    exists k. repeat split; try lia; try assumption.
    intros fuel Hfuel. apply probe_enough; [lia|assumption|assumption].
  - exfalso. apply probe_pigeonhole. now apply probe_none.
Qed.

End ProbeFacts.

(** ** Filename resolution *)

Section ResolveFacts.

Import PyStr Pathlib Fs Ingest.

(** The two special names always exist once the module is initialised. *)
Lemma dot_exists (w : World) :
  ready w -> path_exists w (div UPLOAD_DIR ".") = true.
Proof.
  intros [_ Hs]. unfold path_exists.
  change (locate (cwd w) (div UPLOAD_DIR ".")) with (storage w).
  now rewrite Hs.
Qed.

Lemma dotdot_exists (w : World) :
  ready w -> path_exists w (div UPLOAD_DIR "..") = true.
Proof.
  intros [Hc _]. unfold path_exists.
  assert (E : locate (cwd w) (div UPLOAD_DIR "..") = cwd w).
  { unfold locate. simpl. unfold step. simpl. apply removelast_last. }
  now rewrite E, Hc.
Qed.

(** What lines 74-85 compute for a sanitised, non-empty name: an entry
    [n] of the storage directory that does not exist yet, which is the
    name itself when that is free and else the candidate with the least
    free counter. *)
Lemma resolve_dest_spec (w : World) (filename : string) :
  ready w -> mem OsPath.sep filename = false -> filename <> "" ->
  exists n,
    resolve_dest w filename = Some (mkPath false ["uploads"; n])
    /\ locate (cwd w) (mkPath false ["uploads"; n]) = storage w ++ [n]
    /\ fs w !! (storage w ++ [n]) = None
    /\ mem OsPath.sep n = false
    /\ ((path_exists w (div UPLOAD_DIR filename) = false /\ n = filename)
        \/ (path_exists w (div UPLOAD_DIR filename) = true
            /\ exists k, 1 <= k
                 /\ n = candidate_name (OsPath.splitext filename).1
                                       (OsPath.splitext filename).2 k
                 /\ path_exists w (cand_path (OsPath.splitext filename).1
                                             (OsPath.splitext filename).2 k) = false
                 /\ forall j, 1 <= j < k ->
                      path_exists w (cand_path (OsPath.splitext filename).1
                                               (OsPath.splitext filename).2 j) = true)).
Proof.
  intros Hready Hplain Hne. unfold resolve_dest.
  destruct (path_exists w (div UPLOAD_DIR filename)) eqn:Hex.
  - destruct (OsPath.splitext filename) as [base ext] eqn:Hsp. cbn [fst snd].
    destruct (splitext_no_sep _ _ _ Hplain Hsp) as [Hb He].
    destruct (probe_total w base ext Hb He) as (k & Hk & Hfree & Hmin & Hfuel).
    exists (candidate_name base ext k).
    destruct (candidate_locate w base ext k Hb He) as [Hd Hl].
    rewrite (Hfuel (S (size (fs w)))) by lia. unfold cand_path. rewrite Hd.
    repeat split.
    + rewrite <- Hd. exact Hl.
    + now apply (cand_exists_false w base ext Hb He k).
    + now apply candidate_no_sep.
    + right. split; [reflexivity|]. exists k. repeat split; try lia; assumption.
  - assert (Hdot : filename <> ".").
    { intros ->. rewrite dot_exists in Hex by assumption. discriminate. }
    assert (Hdd : filename <> "..").
    { intros ->. rewrite dotdot_exists in Hex by assumption. discriminate. }
    exists filename. rewrite (div_upload_dir_plain filename) in * by assumption.
    assert (Hl := locate_plain w filename Hdd).
    repeat split; try assumption.
    + unfold path_exists in Hex. rewrite Hl, node_at_child in Hex.
      destruct (fs w !! _); [discriminate|reflexivity].
    + now left.
Qed.

End ResolveFacts.

(** ** The copy loop *)

Section WriteFacts.

Import Pathlib Fs Ingest.

Lemma split_at_spec {A : Type} (n : N) (l a b : list A) :
  split_at n l = (a, b) ->
  l = a ++ b /\ (N.of_nat (length a) <= n)%N /\ (a = [] -> n = 0%N \/ l = []).
Proof.
  revert n a b; induction l as [|x l IH]; intros n a b H; simpl in H.
  - injection H as <- <-. repeat split; [simpl; lia|auto].
  - destruct (n =? 0)%N eqn:E.
    + injection H as <- <-. apply N.eqb_eq in E. repeat split; [simpl; lia|auto].
    + destruct (split_at (N.pred n) l) as [a' b'] eqn:E'. injection H as <- <-.
      apply N.eqb_neq in E. destruct (IH _ _ _ E') as (-> & Hlen & _).
      repeat split; [simpl; lia|discriminate].
Qed.

(** A read hands over a prefix of what is left, of at most the size asked
    for, and hands over nothing only when nothing is left. *)
Lemma read_spec (file file' : UploadFile) (chunk : list Byte.byte) :
  read file CHUNK_SIZE = (chunk, file') ->
  body file = chunk ++ body file'
  /\ (N.of_nat (length chunk) <= CHUNK_SIZE)%N
  /\ (chunk = [] -> body file = []).
Proof.
  unfold read.
  set (n := match short_reads file with
            | [] => CHUNK_SIZE
            | r :: _ => N.min CHUNK_SIZE (N.max 1 r)
            end).
  assert (Hn : (1 <= n <= CHUNK_SIZE)%N).
  { unfold n, CHUNK_SIZE. destruct (short_reads file); lia. }
  destruct (split_at n (body file)) as [a b] eqn:E. intros [= <- <-]. simpl.
  destruct (split_at_spec _ _ _ _ E) as (Hb & Hlen & Hnil).
  repeat split; [assumption|lia|].
  intros Ha. destruct (Hnil Ha) as [H0|H0]; [lia|assumption].
Qed.

(** What one write does. *)
Lemma write_spec (h : loc) (chunk : list Byte.byte) (w w2 : World) (r : res unit) :
  write h chunk w = (r, w2) ->
  cwd w2 = cwd w
  /\ open_fault (faults w2) = open_fault (faults w)
  /\ unlink_fault (faults w2) = unlink_fault (faults w)
  /\ write_faults (faults w2) = tail (write_faults (faults w))
  /\ match r with
     | Ok _ => fs w2 = append_at h chunk (fs w)
               /\ trace w2 = trace w ++ [EvWrite h chunk true]
     | Exc e => fs w2 = fs w
                /\ trace w2 = trace w ++ [EvWrite h chunk false]
                /\ In (Some e) (write_faults (faults w))
     end.
Proof.
  unfold write. destruct (write_faults (faults w)) as [|[e|] fl] eqn:E;
    intros [= <- <-]; simpl; repeat split; auto.
Qed.

Lemma append_at_file (h : loc) (acc chunk : list Byte.byte) (m : gmap loc node) :
  m !! h = Some (File acc) -> append_at h chunk m = <[h := File (acc ++ chunk)]> m.
Proof. unfold append_at. now intros ->. Qed.

(** The copy loop, whatever its fuel: where it ends, the file behind the
    handle holds what it held before followed by the bytes of the writes
    that returned; a loop that completes has written the whole body and
    counted it; a loop that aborts does so on a write the environment
    failed, with bytes of the body still unwritten. *)
Lemma write_loop_spec (fuel : nat) (h : loc) (file : UploadFile) (total : N)
    (w w' : World) (acc : list Byte.byte) (r : res N) :
  fs w !! h = Some (File acc) ->
  write_loop fuel h file total w = Some (r, w') ->
  exists t,
    trace w' = trace w ++ t
    /\ cwd w' = cwd w
    /\ open_fault (faults w') = open_fault (faults w)
    /\ unlink_fault (faults w') = unlink_fault (faults w)
    /\ fs w' = <[h := File (acc ++ written t)]> (fs w)
    /\ match r with
       | Ok n => copy_trace h t true /\ written t = body file
                 /\ n = (total + N.of_nat (length (body file)))%N
       | Exc e => copy_trace h t false
                  /\ In (Some e) (write_faults (faults w))
                  /\ exists rest, rest <> [] /\ body file = written t ++ rest
       end.
Proof.
  revert file total w acc; induction fuel as [|fuel IH]; intros file total w acc Hh H;
    [discriminate|].
  simpl in H. destruct (read file CHUNK_SIZE) as [chunk file'] eqn:Hr.
  destruct (read_spec _ _ _ Hr) as (Hbody & Hlen & Hnil).
  destruct chunk as [|c chunk].
  - injection H as <- <-. exists [EvRead CHUNK_SIZE []]. simpl.
    rewrite app_nil_r, (insert_id _ _ _ Hh), (Hnil eq_refl). simpl.
    repeat split; try reflexivity; [constructor|lia].
  - destruct (write h (c :: chunk) (log (EvRead CHUNK_SIZE (c :: chunk)) w))
      as [[u|e] w2] eqn:Hw;
      destruct (write_spec _ _ _ _ _ Hw) as (Hc & Hof & Huf & Hwf & Hres); simpl in *.
    + destruct Hres as [Hfs Htr].
      rewrite (append_at_file _ _ _ _ Hh) in Hfs.
      assert (Hh2 : fs w2 !! h = Some (File (acc ++ c :: chunk))).
      { rewrite Hfs. apply lookup_insert_eq. }
      destruct (IH _ _ _ _ Hh2 H) as (t & Ht & Hc' & Hof' & Huf' & Hfs' & Hr').
      exists (EvRead CHUNK_SIZE (c :: chunk) :: EvWrite h (c :: chunk) true :: t).
      repeat split.
      * rewrite Ht, Htr, <- !app_assoc. reflexivity.
      * congruence.
      * congruence.
      * congruence.
      * rewrite Hfs', Hfs, insert_insert_eq, <- app_assoc. reflexivity.
      * destruct r as [n|e].
        -- destruct Hr' as (Hct & Hwr & Hn). repeat split.
           ++ constructor; [discriminate|assumption|assumption].
           ++ simpl. rewrite Hwr. symmetry. exact Hbody.
           ++ rewrite Hn. pose proof (f_equal (@length _) Hbody) as HL.
              simpl in HL. rewrite length_app in HL. simpl. lia.
        -- destruct Hr' as (Hct & Hin & rest & Hrest & Hb). repeat split.
           ++ constructor; [discriminate|assumption|assumption].
           ++ rewrite Hwf in Hin. destruct (write_faults (faults w)); [destruct Hin|].
              right. exact Hin.
           ++ exists rest. split; [assumption|]. simpl.
              rewrite Hbody, Hb, <- app_assoc. reflexivity.
    + injection H as <- <-. destruct Hres as (Hfs & Htr & Hin).
      exists [EvRead CHUNK_SIZE (c :: chunk); EvWrite h (c :: chunk) false]. simpl.
      rewrite app_nil_r. repeat split; try assumption.
      * rewrite Htr, <- app_assoc. reflexivity.
      * rewrite Hfs. symmetry. apply insert_id. exact Hh.
      * constructor; [discriminate|assumption].
      * exists (body file). split; [rewrite Hbody; discriminate|reflexivity].
Qed.

(** One more iteration than the body has bytes brings the loop to its
    end. *)
Lemma write_loop_total (fuel : nat) (h : loc) (file : UploadFile) (total : N)
    (w : World) :
  length (body file) < fuel -> is_Some (write_loop fuel h file total w).
Proof.
  revert file total w; induction fuel as [|fuel IH]; intros file total w Hlt; [lia|].
  simpl. destruct (read file CHUNK_SIZE) as [chunk file'] eqn:Hr.
  destruct (read_spec _ _ _ Hr) as (Hbody & _ & _).
  destruct chunk as [|c chunk]; [eauto|].
  destruct (write h (c :: chunk) _) as [[u|e] w2]; [|eauto].
  apply IH. rewrite Hbody, length_app in Hlt. simpl in Hlt. lia.
Qed.

End WriteFacts.

(** ** The handler as a whole *)

Section UploadFacts.

Import Pathlib Fs Ingest.

(** Opening a fresh entry of the storage directory. *)
Lemma open_wb_fresh (w : World) (n : string) :
  locate (cwd w) (mkPath false ["uploads"; n]) = storage w ++ [n] ->
  node_at w (storage w) = Some Dir ->
  fs w !! (storage w ++ [n]) = None ->
  open_wb (mkPath false ["uploads"; n]) w
  = match open_fault (faults w) with
    | Some e => (Exc e, log (EvOpen (storage w ++ [n]) false) w)
    | None => (Ok (storage w ++ [n]),
               log (EvOpen (storage w ++ [n]) true)
                   (set_fs w (<[storage w ++ [n] := File []]> (fs w))))
    end.
Proof.
  intros Hl Hd Hn. unfold open_wb. cbv zeta. rewrite Hl.
  destruct (open_fault (faults w)); [reflexivity|].
  destruct (storage w ++ [n]) as [|s l0] eqn:E;
    [now apply storage_child_nonempty in E|].
  rewrite <- E in Hn |- *. rewrite removelast_last, Hd, node_at_child, Hn.
  reflexivity.
Qed.

(** The cleanup, on a path that denotes an entry below the root. *)
Lemma cleanup_at (w : World) (p : Path) (l : loc) :
  locate (cwd w) p = l -> l <> [] ->
  cleanup p w
  = match fs w !! l with
    | None => w
    | Some (File _) =>
        match unlink_fault (faults w) with
        | Some _ => log (EvUnlink l false) w
        | None => log (EvUnlink l true) (set_fs w (delete l (fs w)))
        end
    | Some Dir => log (EvUnlink l false) w
    end.
Proof.
  intros Hl Hne. unfold cleanup, path_exists, unlink. cbv zeta. rewrite Hl.
  destruct l as [|x l']; [congruence|]. unfold node_at.
  destruct (fs w !! (x :: l')) as [[d|]|]; [|destruct (unlink_fault _)|];
    try reflexivity.
  destruct (unlink_fault (faults w)); reflexivity.
Qed.

(** What [upload] does to a world that has its storage directory, for
    every request with a non-empty base name: it answers; the destination
    is an entry [n] of the storage directory that did not exist; a success
    leaves exactly that entry behind, holding the body; a failure is a 500
    that quotes the exception, and the entry is removed again unless the
    removal itself fails. *)
Lemma upload_spec (file : UploadFile) (w : World) :
  ready w -> OsPath.basename (filename file) <> "" ->
  exists n resp w',
    upload file w = Some (resp, w')
    /\ resolve_dest w (OsPath.basename (filename file))
       = Some (mkPath false ["uploads"; n])
    /\ fs w !! (storage w ++ [n]) = None
    /\ cwd w' = cwd w
    /\ match resp with
       | JSONResponse n' size =>
           n' = n /\ size = N.of_nat (length (body file))
           /\ fs w' = <[storage w ++ [n] := File (body file)]> (fs w)
           /\ exists t, trace w' = trace w ++ EvOpen (storage w ++ [n]) true :: t
                        /\ copy_trace (storage w ++ [n]) t true
                        /\ written t = body file
       | HTTPException code detail =>
           code = 500
           /\ exists e, detail = "Failed to save file: " +:+ e
              /\ ((open_fault (faults w) = Some e /\ fs w' = fs w
                   /\ trace w' = trace w ++ [EvOpen (storage w ++ [n]) false])
                  \/ (open_fault (faults w) = None
                      /\ In (Some e) (write_faults (faults w))
                      /\ exists t rest,
                           copy_trace (storage w ++ [n]) t false
                           /\ rest <> [] /\ body file = written t ++ rest
                           /\ match unlink_fault (faults w) with
                              | None =>
                                  fs w' = fs w
                                  /\ trace w' = trace w
                                       ++ EvOpen (storage w ++ [n]) true :: t
                                       ++ [EvUnlink (storage w ++ [n]) true]
                              | Some _ =>
                                  fs w' = <[storage w ++ [n] := File (written t)]> (fs w)
                                  /\ trace w' = trace w
                                       ++ EvOpen (storage w ++ [n]) true :: t
                                       ++ [EvUnlink (storage w ++ [n]) false]
                              end))
       end.
Proof.
  intros Hready Hne.
  destruct (resolve_dest_spec w _ Hready (basename_no_sep _) Hne)
    as (n & Hres & Hloc & Hfree & Hplain & _).
  pose proof (storage_child_nonempty w n) as Hnonempty.
  set (l := storage w ++ [n]) in *.
  unfold upload. apply String.eqb_neq in Hne. rewrite Hne, Hres.
  unfold save_stream. rewrite (open_wb_fresh w n Hloc (proj2 Hready) Hfree).
  fold l. destruct (open_fault (faults w)) as [e|] eqn:Hof.
  - (* open raises: nothing was created, nothing is removed *)
    assert (Hcl : cleanup (mkPath false ["uploads"; n]) (log (EvOpen l false) w)
                  = log (EvOpen l false) w).
    { rewrite (cleanup_at (log (EvOpen l false) w) _ l Hloc Hnonempty). simpl.
      now rewrite Hfree. }
    rewrite Hcl.
    exists n, (HTTPException 500 ("Failed to save file: " +:+ e)),
      (log (EvOpen l false) w).
    repeat split; try assumption.
    exists e. split; [reflexivity|]. left. repeat split.
  - set (w1 := log (EvOpen l true) (set_fs w (<[l:=File []]> (fs w)))).
    assert (Hh : fs w1 !! l = Some (File [])) by apply lookup_insert_eq.
    destruct (write_loop_total (S (length (body file))) l file 0 w1 (Nat.lt_succ_diag_r _))
      as [[r w2] Hloop].
    rewrite Hloop.
    destruct (write_loop_spec _ _ _ _ _ _ _ _ Hh Hloop)
      as (t & Ht & Hc & Hof2 & Huf2 & Hfs & Hr).
    simpl in Ht, Hc, Hof2, Huf2, Hfs. rewrite insert_insert_eq in Hfs.
    destruct r as [total|e].
    + (* the loop completes *)
      destruct Hr as (Hct & Hwr & Htot).
      exists n, (JSONResponse n total), w2. repeat split; try assumption.
      * rewrite Hfs, Hwr. reflexivity.
      * exists t. rewrite Ht, <- app_assoc. auto.
    + (* a write raises *)
      destruct Hr as (Hct & Hin & rest & Hrest & Hb). simpl in Hin.
      assert (Hl2 : locate (cwd w2) (mkPath false ["uploads"; n]) = l)
        by (rewrite Hc; exact Hloc).
      assert (Hnode : fs w2 !! l = Some (File (written t))).
      { rewrite Hfs. apply lookup_insert_eq. }
      rewrite (cleanup_at _ _ l Hl2 Hnonempty), Hnode, Huf2.
      exists n, (HTTPException 500 ("Failed to save file: " +:+ e)).
      eexists. split; [reflexivity|].
      repeat split; try assumption.
      * destruct (unlink_fault (faults w)); exact Hc.
      * exists e. split; [reflexivity|]. right. repeat split; try assumption.
        exists t, rest. repeat split; try assumption.
        destruct (unlink_fault (faults w)) as [ue|]; simpl.
        -- split; [exact Hfs|]. rewrite Ht, <- !app_assoc. reflexivity.
        -- split.
           ++ rewrite Hfs. apply delete_insert_id. exact Hfree.
           ++ rewrite Ht, <- !app_assoc. reflexivity.
Qed.

End UploadFacts.

(** ** The properties of the upload endpoint *)

Section UploadClaims.

Import Pathlib Fs Ingest.

(** C1. A successful upload of a body of S bytes, whatever the sizes the
    reads deliver it in, creates exactly one entry of the storage
    directory, holding exactly the body, and answers with [size_bytes = S],
    the total of the chunks written; and the upload is successful whenever
    the environment fails neither the open nor a write. *)
Theorem upload_stores_body (file : UploadFile) (w : World) :
  ready w -> OsPath.basename (filename file) <> "" ->
  (open_fault (faults w) = None ->
   (forall e, ~ In (Some e) (write_faults (faults w))) ->
   exists n w',
     upload file w = Some (JSONResponse n (N.of_nat (length (body file))), w'))
  /\ forall n size w',
       upload file w = Some (JSONResponse n size, w') ->
       fs w !! (storage w ++ [n]) = None
       /\ fs w' = <[storage w ++ [n] := File (body file)]> (fs w)
       /\ size = N.of_nat (length (body file))
       /\ exists t, trace w' = trace w ++ EvOpen (storage w ++ [n]) true :: t
                    /\ written t = body file
                    /\ size = N.of_nat (length (written t)).
Proof.
  intros Hready Hne.
  destruct (upload_spec file w Hready Hne) as (n0 & resp & w0 & Hup & _ & Hfree & _ & Hresp).
  split.
  - intros Hof Hwf. destruct resp as [n' size|code detail].
    + destruct Hresp as (-> & -> & _). eauto.
    + destruct Hresp as (_ & e & _ & [(Hof' & _)|(_ & Hin & _)]).
      * congruence.
      * now apply Hwf in Hin.
  - intros n size w' Hup'. rewrite Hup in Hup'. injection Hup' as -> ->.
    destruct Hresp as (<- & -> & Hfs & t & Ht & _ & Hwr).
    repeat split; try assumption.
    exists t. rewrite Hwr. auto.
Qed.

(** C2. When the sanitised name is taken, the file is stored under
    [base(k)ext], [base] and [ext] being the name cut before its
    extension and [k] the least counter from 1 on whose candidate is
    free: that is the destination the resolution returns; the upload
    answers, either with that name, the body then being stored under it
    as the one new entry, or with a 500 that quotes a fault of the open
    or of a write; and it does succeed when the environment fails neither
    the open nor a write. *)
Theorem upload_collision_counter (file : UploadFile) (w : World) :
  ready w -> OsPath.basename (filename file) <> "" ->
  path_exists w (div UPLOAD_DIR (OsPath.basename (filename file))) = true ->
  exists base ext k,
    OsPath.splitext (OsPath.basename (filename file)) = (base, ext)
    /\ base +:+ ext = OsPath.basename (filename file)
    /\ 1 <= k
    /\ path_exists w (cand_path base ext k) = false
    /\ (forall j, 1 <= j < k -> path_exists w (cand_path base ext j) = true)
    /\ resolve_dest w (OsPath.basename (filename file)) = Some (cand_path base ext k)
    /\ (exists resp w',
          upload file w = Some (resp, w')
          /\ match resp with
             | JSONResponse n size =>
                 n = candidate_name base ext k
                 /\ size = N.of_nat (length (body file))
                 /\ fs w' = <[storage w ++ [candidate_name base ext k]
                              := File (body file)]> (fs w)
             | HTTPException code detail =>
                 code = 500
                 /\ exists e, detail = "Failed to save file: " +:+ e
                      /\ (open_fault (faults w) = Some e
                          \/ In (Some e) (write_faults (faults w)))
             end)
    /\ (open_fault (faults w) = None ->
        (forall e, ~ In (Some e) (write_faults (faults w))) ->
        exists w',
          upload file w
          = Some (JSONResponse (candidate_name base ext k)
                               (N.of_nat (length (body file))), w')
          /\ fs w' !! (storage w ++ [candidate_name base ext k])
             = Some (File (body file)))
    /\ forall n size w',
         upload file w = Some (JSONResponse n size, w') ->
         n = candidate_name base ext k
         /\ fs w' !! (storage w ++ [n]) = Some (File (body file)).
Proof.
  intros Hready Hne Hex.
  destruct (OsPath.splitext (OsPath.basename (filename file))) as [base ext] eqn:Hsp.
  destruct (resolve_dest_spec w _ Hready (basename_no_sep _) Hne)
    as (n & Hres & _ & _ & _ & [[Hno _]|[_ (k & Hk & Hn & Hfree & Hmin)]]);
    [congruence|].
  rewrite Hsp in Hn, Hfree, Hmin. simpl in Hn, Hfree, Hmin.
  destruct (splitext_no_sep _ _ _ (basename_no_sep _) Hsp) as [Hb He].
  destruct (candidate_locate w base ext k Hb He) as [Hd _].
  destruct (upload_spec file w Hready Hne)
    as (n0 & resp & w0 & Hup & Hres0 & _ & _ & Hresp).
  rewrite Hres in Hres0. injection Hres0 as <-. subst n.
  exists base, ext, k.
  split; [reflexivity|]. split; [now apply splitext_concat|].
  split; [assumption|]. split; [assumption|]. split; [assumption|].
  split; [|split; [|split]].
  - rewrite Hres. unfold cand_path. now rewrite Hd.
  - exists resp, w0. split; [exact Hup|].
    destruct resp as [n' size|code detail].
    + destruct Hresp as (-> & -> & -> & _). auto.
    + destruct Hresp as (-> & e & -> & [(Hof & _)|(_ & Hin & _)]);
        (split; [reflexivity|]); exists e; auto.
  - intros Hof Hwf. destruct resp as [n' size|code detail].
    + destruct Hresp as (-> & -> & Hfs & _). exists w0. split; [exact Hup|].
      rewrite Hfs. apply lookup_insert_eq.
    + exfalso. destruct Hresp as (_ & e & _ & [(Hof' & _)|(_ & Hin & _)]).
      * congruence.
      * now apply Hwf in Hin.
  - intros n' size w' Hup'.
    rewrite Hup' in Hup. injection Hup as <- <-.
    destruct Hresp as (-> & _ & -> & _).
    split; [reflexivity|apply lookup_insert_eq].
Qed.

(** C3. Whatever the declared file name, directory components and
    [..] sequences included, only its base name counts: an empty base name
    is answered with a 400 before anything is touched; otherwise the
    destination is an entry of the storage directory, named by the base
    name or by a candidate made from it, that did not exist, and no other
    location of the file system is created, changed or removed. *)
Theorem upload_confined (file : UploadFile) (w : World) :
  ready w ->
  (OsPath.basename (filename file) = "" ->
   upload file w = Some (HTTPException 400 "Missing filename", w))
  /\ (OsPath.basename (filename file) <> "" ->
      exists n,
        resolve_dest w (OsPath.basename (filename file))
        = Some (mkPath false ["uploads"; n])
        /\ locate (cwd w) (mkPath false ["uploads"; n]) = storage w ++ [n]
        /\ PyStr.mem OsPath.sep n = false
        /\ (n = OsPath.basename (filename file)
            \/ exists k,
                 n = candidate_name
                       (OsPath.splitext (OsPath.basename (filename file))).1
                       (OsPath.splitext (OsPath.basename (filename file))).2 k)
        /\ fs w !! (storage w ++ [n]) = None
        /\ exists resp w',
             upload file w = Some (resp, w')
             /\ forall l, l <> storage w ++ [n] -> fs w' !! l = fs w !! l).
Proof.
  intros Hready. split.
  - intros He. unfold upload. now rewrite He.
  - intros Hne.
    destruct (resolve_dest_spec w _ Hready (basename_no_sep _) Hne)
      as (n & Hres & Hloc & Hfree & Hplain & Hcase).
    destruct (upload_spec file w Hready Hne)
      as (n0 & resp & w' & Hup & Hres0 & _ & _ & Hresp).
    rewrite Hres in Hres0. injection Hres0 as <-.
    exists n. split; [assumption|]. split; [assumption|]. split; [assumption|].
    split.
    { destruct Hcase as [[_ ->]|[_ (k & _ & -> & _)]]; eauto. }
    split; [assumption|].
    exists resp, w'. split; [assumption|]. intros l Hl.
    destruct resp as [n' size|code detail].
    + destruct Hresp as (_ & _ & -> & _). now apply lookup_insert_ne.
    + destruct Hresp as (_ & e & _ & [(_ & -> & _)|(_ & _ & t & rest & _ & _ & _ & Hu)]);
        [reflexivity|].
      destruct (unlink_fault (faults w)); destruct Hu as [-> _];
        [now apply lookup_insert_ne|reflexivity].
Qed.

(** C4. With the destination opened, the request ends in one of two ways.
    Either the copy loop completes, and exactly one entry has been
    created.  Or a write raises: the loop is left at once, the removal of
    the partial file is attempted, and the answer is a 500 whose detail
    quotes the exception of the write, whether the removal works (then the
    file system is as it was before the request) or raises (then the
    partial file stays and the exception of the removal is dropped). *)
Theorem upload_write_failure (file : UploadFile) (w : World) :
  ready w -> OsPath.basename (filename file) <> "" ->
  open_fault (faults w) = None ->
  exists n resp w' t,
    upload file w = Some (resp, w')
    /\ fs w !! (storage w ++ [n]) = None
    /\ ((copy_trace (storage w ++ [n]) t true
         /\ resp = JSONResponse n (N.of_nat (length (body file)))
         /\ trace w' = trace w ++ EvOpen (storage w ++ [n]) true :: t
         /\ fs w' = <[storage w ++ [n] := File (body file)]> (fs w))
        \/ (copy_trace (storage w ++ [n]) t false
            /\ exists e,
                 In (Some e) (write_faults (faults w))
                 /\ resp = HTTPException 500 ("Failed to save file: " +:+ e)
                 /\ trace w' = trace w
                      ++ EvOpen (storage w ++ [n]) true :: t
                      ++ [EvUnlink (storage w ++ [n])
                                   (bool_decide (unlink_fault (faults w) = None))]
                 /\ (unlink_fault (faults w) = None -> fs w' = fs w)
                 /\ (unlink_fault (faults w) <> None ->
                     fs w' = <[storage w ++ [n] := File (written t)]> (fs w)))).
Proof.
  intros Hready Hne Hof.
  destruct (upload_spec file w Hready Hne)
    as (n & resp & w' & Hup & _ & Hfree & _ & Hresp).
  destruct resp as [n' size|code detail].
  - destruct Hresp as (-> & -> & Hfs & t & Ht & Hct & _).
    exists n, (JSONResponse n (N.of_nat (length (body file)))), w', t.
    split; [assumption|]. split; [assumption|]. left. auto.
  - destruct Hresp as (-> & e & -> & [(Hof' & _)|(_ & Hin & t & rest & Hct & _ & _ & Hu)]);
      [congruence|].
    exists n, (HTTPException 500 ("Failed to save file: " +:+ e)), w', t.
    split; [assumption|]. split; [assumption|]. right. split; [assumption|].
    exists e. split; [assumption|]. split; [reflexivity|].
    destruct (unlink_fault (faults w)) as [ue|]; destruct Hu as [Hfs Htr].
    + split; [exact Htr|]. split; [discriminate|]. intros _. exact Hfs.
    + split; [exact Htr|]. split; [intros _; exact Hfs|]. congruence.
Qed.

(** C10. The probe always ends: among the counters 1 to one more than
    the file system has entries, one has a free candidate, and any fuel
    that reaches the least such counter makes the probe return it; so
    the resolution answers for every name, with a destination that does not
    exist when it is chosen. *)
Theorem resolve_dest_total (w : World) (raw : string) :
  exists dest,
    resolve_dest w (OsPath.basename raw) = Some dest
    /\ path_exists w dest = false
    /\ forall base ext,
         OsPath.splitext (OsPath.basename raw) = (base, ext) ->
         exists k,
           1 <= k <= S (size (fs w))
           /\ path_exists w (cand_path base ext k) = false
           /\ (forall fuel, k <= fuel ->
               probe fuel w base ext 1 = Some (cand_path base ext k))
           /\ (path_exists w (div UPLOAD_DIR (OsPath.basename raw)) = true ->
               dest = cand_path base ext k).
Proof.
  destruct (OsPath.splitext (OsPath.basename raw)) as [base ext] eqn:Hsp.
  destruct (splitext_no_sep _ _ _ (basename_no_sep _) Hsp) as [Hb He].
  destruct (probe_total w base ext Hb He) as (k & Hk & Hfree & Hmin & Hfuel).
  unfold resolve_dest. rewrite Hsp.
  destruct (path_exists w (div UPLOAD_DIR (OsPath.basename raw))) eqn:Hex.
  - exists (cand_path base ext k). rewrite (Hfuel (S (size (fs w)))) by lia.
    split; [reflexivity|]. split; [assumption|].
    intros base' ext' [= <- <-]. exists k. auto.
  - exists (div UPLOAD_DIR (OsPath.basename raw)).
    split; [reflexivity|]. split; [assumption|].
    intros base' ext' [= <- <-]. exists k.
    split; [assumption|]. split; [assumption|]. split; [assumption|]. discriminate.
Qed.

End UploadClaims.

(** ** The relay controller: paths and the command line *)

Section RelayFacts.

Import Relay.

Lemma normpath_rooted (rest : string) :
  exists r, normpath (String "/" rest) = String "/" r.
Proof.
  unfold normpath. change (Ascii.eqb "/" OsPath.sep) with true. cbv iota.
  destruct rest as [|c1 [|c2 rest]].
  - eexists. reflexivity.
  - destruct (Ascii.eqb c1 OsPath.sep); eexists; reflexivity.
  - destruct (Ascii.eqb c1 OsPath.sep && negb (Ascii.eqb c2 OsPath.sep));
      eexists; reflexivity.
Qed.

(** [abspath] answers with a path that starts at the root. *)
Lemma abspath_rooted (e : Env) (path : string) :
  exists r, abspath e path = String "/" r.
Proof.
  unfold abspath, getcwd. destruct path as [|c path].
  - change ("/" +:+ join_sep (cwd e)) with (String "/" (join_sep (cwd e))).
    unfold join. destruct (String.eqb _ "/"); apply normpath_rooted.
  - destruct (Ascii.eqb c OsPath.sep) eqn:Hc.
    + apply Ascii.eqb_eq in Hc as ->. apply normpath_rooted.
    + change ("/" +:+ join_sep (cwd e)) with (String "/" (join_sep (cwd e))).
      unfold join. rewrite Hc.
      destruct (String.eqb _ "/"); apply normpath_rooted.
Qed.

Lemma video_path_rooted (e : Env) (i : Inputs) (vp : string) :
  video_path e i = Some vp -> exists r, vp = String "/" r.
Proof.
  unfold video_path. destruct (_ && _); [|discriminate].
  intros [= <-]. apply abspath_rooted.
Qed.

(** Neither the source path nor the destination can be mistaken for one
    of the two words of the scale option. *)
Lemma build_cmd_scale (vp key : string) (shorts : bool) (x : string) :
  (exists r, vp = String "/" r) ->
  x = "-vf" \/ x = "scale=720:1280" ->
  In x (build_cmd vp key shorts) <-> shorts = true.
Proof.
  intros [r ->] Hx. unfold build_cmd. split.
  - destruct shorts; [reflexivity|]. intros H. exfalso.
    cbn [app In] in H.
    repeat (destruct H as [H|H];
            [destruct Hx as [-> | ->]; cbv in H; discriminate H|]).
    exact H.
  - intros ->. destruct Hx as [-> | ->]; cbn [app In]; tauto.
Qed.

End RelayFacts.

(** ** The properties of the relay controller *)

Section RelayClaims.

Import Relay.

Lemma is_alive_kill (pid : nat) (e : Env) : is_alive pid (kill pid e) = false.
Proof.
  unfold is_alive, kill. simpl. rewrite list_lookup_alter.
  destruct (decide (pid = pid)) as [_|Hne]; [|congruence].
  destruct (procs e !! pid); reflexivity.
Qed.

Lemma run_stop_idle (i : Inputs) (s : slot) (e : Env) :
  stop_only i -> truthy s = false ->
  run_streamlit_app i s e
  = (init_slot s, e, [st_info "Tidak ada proses ffmpeg berjalan."]).
Proof.
  intros [Hs Hp] Ht. unfold run_streamlit_app. rewrite Hs, Hp.
  destruct s; [reflexivity|reflexivity|discriminate].
Qed.

Lemma reruns_stop_idle (inputs : list Inputs) (s : slot) (e : Env) :
  Forall stop_only inputs -> truthy s = false -> init_slot s = s ->
  reruns inputs s e
  = (s, e, map (fun _ => [st_info "Tidak ada proses ffmpeg berjalan."]) inputs).
Proof.
  induction 1 as [|i inputs Hi _ IH]; intros Ht Hinit; [reflexivity|].
  simpl. rewrite (run_stop_idle i s e Hi Ht), Hinit, (IH Ht Hinit). reflexivity.
Qed.

(** C7. A run in which only stop is pressed never fails and leaves no
    session active.  With no session active it changes nothing and
    reports that there is nothing to stop.  With a session active it kills
    the process and releases the handle; and after either, any number of
    further stops change nothing and report that there is nothing to
    stop. *)
Theorem stop_releases_handle (i : Inputs) (s : slot) (e : Env) :
  stop_only i ->
  exists s1 e1 out,
    run_streamlit_app i s e = (s1, e1, out)
    /\ truthy s1 = false
    /\ (truthy s = false ->
        s1 = init_slot s /\ e1 = e
        /\ out = [st_info "Tidak ada proses ffmpeg berjalan."])
    /\ (forall pid, s = Popen pid ->
        s1 = PyNone /\ e1 = kill pid e /\ is_alive pid e1 = false
        /\ In (st_warning "Streaming dihentikan (ffmpeg killed).") out)
    /\ forall further, Forall stop_only further ->
         reruns further s1 e1
         = (s1, e1,
            map (fun _ => [st_info "Tidak ada proses ffmpeg berjalan."]) further).
Proof.
  intros Hi. pose proof Hi as [Hs Hp].
  destruct s as [| |pid].
  - exists PyNone, e, [st_info "Tidak ada proses ffmpeg berjalan."].
    rewrite (run_stop_idle i Missing e Hi eq_refl).
    repeat split; try discriminate.
    intros further Hf. now apply reruns_stop_idle.
  - exists PyNone, e, [st_info "Tidak ada proses ffmpeg berjalan."].
    rewrite (run_stop_idle i PyNone e Hi eq_refl).
    repeat split; try discriminate.
    intros further Hf. now apply reruns_stop_idle.
  - eexists PyNone, (kill pid e), _.
    unfold run_streamlit_app. rewrite Hs, Hp. simpl.
    split; [reflexivity|]. split; [reflexivity|]. split; [discriminate|]. split.
    + intros pid' [= <-]. repeat split; [apply is_alive_kill|now left].
    + intros further Hf. now apply reruns_stop_idle.
Qed.

(** C9. The process a start launches has the two words of the scale
    option, next to each other, in its command line exactly when the
    Shorts box is ticked; without the tick neither word occurs. *)
Theorem start_vertical_transform (i : Inputs) (s : slot) (e : Env)
    (log_lines : list string) (vp : string) :
  video_path e i = Some vp -> stream_key i <> "" -> ffmpeg_on_path e = true ->
  exists cmd e' lines out,
    start i s e log_lines = (Popen (length (procs e)), e', lines, out)
    /\ procs e' = procs e ++ [mkProcess cmd true]
    /\ cmd = build_cmd vp (stream_key i) (is_shorts i)
    /\ (In "-vf" cmd <-> is_shorts i = true)
    /\ (In "scale=720:1280" cmd <-> is_shorts i = true)
    /\ (is_shorts i = true ->
        exists pre post, cmd = pre ++ ["-vf"; "scale=720:1280"] ++ post).
Proof.
  intros Hvp Hkey Hff.
  pose proof (video_path_rooted e i vp Hvp) as Hroot.
  apply String.eqb_neq in Hkey.
  unfold start. rewrite Hvp, Hkey. unfold spawn. rewrite Hff. simpl.
  do 4 eexists. split; [reflexivity|]. simpl.
  split; [reflexivity|]. split; [reflexivity|].
  split; [apply build_cmd_scale; auto|].
  split; [apply build_cmd_scale; auto|].
  intros ->. unfold build_cmd. eexists _, _. reflexivity.
Qed.

(** C6, as the controller has it.  A start without a selected file,
    without a stream key, or whose launch fails is a soft outcome: an
    error is shown, no process is added, the handle is kept.  Any other
    start launches a process and puts its handle in the slot, whatever the
    slot held; the processes launched before are left as they were. *)
Theorem start_outcomes (i : Inputs) (s : slot) (e : Env) (log_lines : list string) :
  exists s' e' lines out,
    start i s e log_lines = (s', e', lines, out)
    /\ (video_path e i = None \/ stream_key i = "" \/ ffmpeg_on_path e = false ->
        s' = s /\ e' = e /\ exists msg, In (st_error msg) out)
    /\ (forall vp,
          video_path e i = Some vp -> stream_key i <> "" ->
          ffmpeg_on_path e = true ->
          s' = Popen (length (procs e))
          /\ procs e' = procs e
               ++ [mkProcess (build_cmd vp (stream_key i) (is_shorts i)) true]
          /\ forall pid, pid < length (procs e) -> procs e' !! pid = procs e !! pid).
Proof.
  unfold start.
  destruct (video_path e i) as [vp|] eqn:Hvp.
  - destruct (String.eqb (stream_key i) "") eqn:Hkey.
    + apply String.eqb_eq in Hkey. do 4 eexists. split; [reflexivity|]. split.
      * intros _. repeat split. eexists. now left.
      * intros vp' _ Hne. congruence.
    + apply String.eqb_neq in Hkey. unfold spawn.
      destruct (ffmpeg_on_path e) eqn:Hff; simpl.
      * do 4 eexists. split; [reflexivity|]. split.
        -- intros [H|[H|H]]; congruence.
        -- intros vp' [= <-] _ _. simpl. repeat split.
           intros pid Hpid. now apply lookup_app_l.
      * do 4 eexists. split; [reflexivity|]. split.
        -- intros _. repeat split. eexists. right. right. now left.
        -- intros vp' _ _ Hff'. congruence.
  - do 4 eexists. split; [reflexivity|]. split.
    + intros _. repeat split. eexists. now left.
    + intros vp' Hvp'. congruence.
Qed.

(** C5, as the controller has it.  The end of the process on its own
    leaves the session state as it is: on a run without a button the
    handle is still there and still counts as a running session; the
    stop button then works as for a live process, it releases the handle
    and reports the stream as stopped. *)
Theorem self_exit_keeps_handle (i : Inputs) (pid : nat) (e : Env) :
  start_btn i = false ->
  exists s' e' out,
    run_streamlit_app i (Popen pid) (exits pid e) = (s', e', out)
    /\ if stop_btn i
       then s' = PyNone /\ truthy s' = false
            /\ In (st_warning "Streaming dihentikan (ffmpeg killed).") out
       else s' = Popen pid /\ truthy s' = true /\ e' = exits pid e /\ out = [].
Proof.
  intros Hs. unfold run_streamlit_app. rewrite Hs.
  destruct (stop_btn i); simpl; do 3 eexists; (split; [reflexivity|]).
  - repeat split. now left.
  - repeat split.
Qed.

End RelayClaims.

(** ** The properties at concrete requests *)

Section UploadInstances.

Import Pathlib Fs Ingest IngestExamples.

Lemma w0_ready : ready w0.
Proof. split; vm_compute; reflexivity. Defined.

Lemma w1_ready : ready w1.
Proof. split; vm_compute; reflexivity. Defined.

Lemma w_full_ready : ready w_full.
Proof. split; vm_compute; reflexivity. Defined.

(** The disk fills up during the second chunk: the answer quotes the
    error, the events end with the failed write and the removal, and the
    partial file is gone. *)
Example upload_disk_full :
  (fun r => (r.1, trace r.2, fs r.2 !! ["srv"; "uploads"; "a.bin"]))
    <$> upload (req_slow "a.bin" [b 1; b 2; b 3; b 4; b 5]) w_full
  = Some (HTTPException 500 "Failed to save file: [Errno 28] No space left on device",
          [EvOpen ["srv"; "uploads"; "a.bin"] true;
           EvRead 4194304 [b 1; b 2];
           EvWrite ["srv"; "uploads"; "a.bin"] [b 1; b 2] true;
           EvRead 4194304 [b 3; b 4];
           EvWrite ["srv"; "uploads"; "a.bin"] [b 3; b 4] false;
           EvUnlink ["srv"; "uploads"; "a.bin"] true],
          None).
Proof. vm_compute. reflexivity. Qed.

(** The same with a removal that fails: the same answer, the first chunk
    stays behind. *)
Example upload_disk_full_stuck :
  (fun r => (r.1, fs r.2 !! ["srv"; "uploads"; "a.bin"]))
    <$> upload (req_slow "a.bin" [b 1; b 2; b 3; b 4; b 5]) w_full_stuck
  = Some (HTTPException 500 "Failed to save file: [Errno 28] No space left on device",
          Some (File [b 1; b 2])).
Proof. vm_compute. reflexivity. Qed.

(** An empty body is stored as an empty file. *)
Example upload_empty_body :
  (fun r => (r.1, fs r.2 !! ["srv"; "uploads"; "empty.bin"]))
    <$> upload (req "empty.bin" []) w0
  = Some (JSONResponse "empty.bin" 0, Some (File [])).
Proof. vm_compute. reflexivity. Qed.

Lemma upload_stores_body_instance :
  ready w0
  /\ OsPath.basename (filename (req_slow "video.mp4" [b 1; b 2; b 3])) <> ""
  /\ exists n w',
       upload (req_slow "video.mp4" [b 1; b 2; b 3]) w0
       = Some (JSONResponse n 3, w').
Proof.
  assert (Hn : OsPath.basename (filename (req_slow "video.mp4" [b 1; b 2; b 3])) <> "")
    by (vm_compute; discriminate).
  split; [exact w0_ready|]. split; [exact Hn|].
  destruct (upload_stores_body (req_slow "video.mp4" [b 1; b 2; b 3]) w0 w0_ready Hn)
    as [Hok _].
  apply Hok; [reflexivity|intros e []].
Defined.

Lemma upload_collision_counter_instance :
  ready w1
  /\ OsPath.basename (filename (req "video.mp4" [b 1])) <> ""
  /\ path_exists w1 (div UPLOAD_DIR (OsPath.basename (filename (req "video.mp4" [b 1]))))
     = true
  /\ resolve_dest w1 "video.mp4" = Some (cand_path "video" ".mp4" 1)
  /\ exists w',
       upload (req "video.mp4" [b 1]) w1 = Some (JSONResponse "video(1).mp4" 1, w')
       /\ fs w' !! ["srv"; "uploads"; "video(1).mp4"] = Some (File [b 1]).
Proof.
  assert (Hn : OsPath.basename (filename (req "video.mp4" [b 1])) <> "")
    by (vm_compute; discriminate).
  assert (Hex : path_exists w1 (div UPLOAD_DIR
                  (OsPath.basename (filename (req "video.mp4" [b 1])))) = true)
    by (vm_compute; reflexivity).
  split; [exact w1_ready|]. split; [exact Hn|]. split; [exact Hex|].
  destruct (upload_collision_counter (req "video.mp4" [b 1]) w1 w1_ready Hn Hex)
    as (base & ext & k & Hsp & _ & Hk & Hfree & Hmin & Hres & _ & Hok & _).
  assert (Hbe : base = "video" /\ ext = ".mp4").
  { change (OsPath.splitext (OsPath.basename (filename (req "video.mp4" [b 1]))))
      with ("video", ".mp4") in Hsp. now injection Hsp as <- <-. }
  destruct Hbe as [-> ->].
  assert (Hk1 : k = 1).
  { destruct (decide (k = 1)) as [E|E]; [exact E|]. exfalso.
    assert (H1 : 1 <= 1 < k) by lia. apply Hmin in H1.
    assert (H0 : path_exists w1 (cand_path "video" ".mp4" 1) = false)
      by (vm_compute; reflexivity).
    congruence. }
  subst k. split; [exact Hres|].
  destruct (Hok eq_refl (fun e (H : In (Some e) []) => H)) as (w' & Hup & Hfs).
  exists w'. split; [exact Hup|exact Hfs].
Defined.

Lemma upload_confined_instance :
  ready w0
  /\ exists n,
       resolve_dest w0 (OsPath.basename "../../etc/passed.mp4")
       = Some (mkPath false ["uploads"; n])
       /\ locate (cwd w0) (mkPath false ["uploads"; n]) = storage w0 ++ [n].
Proof.
  split; [exact w0_ready|].
  destruct (upload_confined (req "../../etc/passed.mp4" [b 1]) w0 w0_ready) as [_ H].
  destruct H as (n & Hres & Hloc & _); [vm_compute; discriminate|].
  exists n. auto.
Defined.

Lemma upload_write_failure_instance :
  ready w_full
  /\ OsPath.basename (filename (req_slow "a.bin" [b 1; b 2; b 3; b 4; b 5])) <> ""
  /\ open_fault (faults w_full) = None
  /\ exists resp w',
       upload (req_slow "a.bin" [b 1; b 2; b 3; b 4; b 5]) w_full = Some (resp, w').
Proof.
  assert (Hn : OsPath.basename (filename (req_slow "a.bin" [b 1; b 2; b 3; b 4; b 5])) <> "")
    by (vm_compute; discriminate).
  split; [exact w_full_ready|]. split; [exact Hn|]. split; [reflexivity|].
  destruct (upload_write_failure (req_slow "a.bin" [b 1; b 2; b 3; b 4; b 5]) w_full
              w_full_ready Hn eq_refl)
    as (n & resp & w' & t & Hup & _).
  exists resp, w'. exact Hup.
Defined.

End UploadInstances.

(** ** The relay controller at concrete runs *)

Section RelayInstances.

Import Relay RelayExamples.

Example start_command_line :
  (fun r => (r.1.1, argv <$> procs r.1.2)) (run_streamlit_app click_start Missing e0)
  = (Popen 0,
     [["ffmpeg"; "-re"; "-stream_loop"; "-1"; "-i"; "/srv/app/uploads/video.mp4";
       "-c:v"; "libx264"; "-preset"; "veryfast"; "-b:v"; "2500k";
       "-maxrate"; "2500k"; "-bufsize"; "5000k";
       "-g"; "60"; "-keyint_min"; "60";
       "-c:a"; "aac"; "-b:a"; "128k";
       "-f"; "flv"; "rtmp://a.rtmp.youtube.com/live2/abcd-1234"]]).
Proof. vm_compute. reflexivity. Qed.

Example stop_with_nothing_running :
  run_streamlit_app click_stop Missing e0
  = (PyNone, e0, [st_info "Tidak ada proses ffmpeg berjalan."]).
Proof. vm_compute. reflexivity. Qed.

(** The process launched by a start ends on its own; on the next run of
    the script the handle is still in the slot and still counts as a
    running session, and a stop afterwards reports a stream that was
    stopped by killing the process. *)
Lemma self_exit_still_running :
  let r1 := run_streamlit_app click_start Missing e0 in
  let gone := exits 0 r1.1.2 in
  let r2 := run_streamlit_app idle r1.1.1 gone in
  let r3 := run_streamlit_app click_stop r2.1.1 r2.1.2 in
  r1.1.1 = Popen 0
  /\ is_alive 0 r1.1.2 = true
  /\ is_alive 0 gone = false
  /\ r2.1.1 = Popen 0 /\ truthy r2.1.1 = true
  /\ r3.2 = [st_warning "Streaming dihentikan (ffmpeg killed).";
             log_box_text "ffmpeg dihentikan oleh user."].
Proof. vm_compute. repeat split. Qed.

(** A second start while the first process is alive: a second process is
    launched, the slot now holds its handle, both are alive, and the run
    reports success. *)
Lemma second_start_spawns :
  let r1 := run_streamlit_app click_start Missing e0 in
  let r2 := run_streamlit_app click_start r1.1.1 r1.1.2 in
  r1.1.1 = Popen 0 /\ truthy r1.1.1 = true
  /\ r2.1.1 = Popen 1
  /\ length (procs r2.1.2) = 2
  /\ is_alive 0 r2.1.2 = true /\ is_alive 1 r2.1.2 = true
  /\ In (st_success "Streaming dimulai — periksa log.") r2.2.
Proof. vm_compute. repeat split. right. now left. Qed.

Lemma stop_releases_handle_instance :
  stop_only click_stop
  /\ exists s1 e1 out,
       run_streamlit_app click_stop (Popen 0) (run_streamlit_app click_start Missing e0).1.2
       = (s1, e1, out)
       /\ truthy s1 = false.
Proof.
  assert (Hs : stop_only click_stop) by (split; reflexivity).
  split; [exact Hs|].
  destruct (stop_releases_handle click_stop (Popen 0)
              (run_streamlit_app click_start Missing e0).1.2 Hs)
    as (s1 & e1 & out & Hrun & Ht & _).
  exists s1, e1, out. auto.
Defined.

Lemma start_vertical_transform_instance :
  video_path e0 click_start_shorts = Some "/srv/app/uploads/video.mp4"
  /\ stream_key click_start_shorts <> ""
  /\ ffmpeg_on_path e0 = true
  /\ exists cmd, In "-vf" cmd /\ In "scale=720:1280" cmd
                 /\ cmd = build_cmd "/srv/app/uploads/video.mp4" "abcd-1234" true.
Proof.
  assert (Hvp : video_path e0 click_start_shorts = Some "/srv/app/uploads/video.mp4")
    by (vm_compute; reflexivity).
  assert (Hk : stream_key click_start_shorts <> "") by (vm_compute; discriminate).
  split; [exact Hvp|]. split; [exact Hk|]. split; [reflexivity|].
  destruct (start_vertical_transform click_start_shorts Missing e0 [] _ Hvp Hk eq_refl)
    as (cmd & e' & lines & out & _ & _ & Hcmd & Hvf & Hscale & _).
  exists cmd. split; [now apply Hvf|]. split; [now apply Hscale|]. exact Hcmd.
Defined.

Lemma self_exit_keeps_handle_instance :
  start_btn idle = false
  /\ exists e' out,
       run_streamlit_app idle (Popen 0)
         (exits 0 (run_streamlit_app click_start Missing e0).1.2)
       = (Popen 0, e', out).
Proof.
  split; [reflexivity|].
  destruct (self_exit_keeps_handle idle 0 (run_streamlit_app click_start Missing e0).1.2
              eq_refl)
    as (s' & e' & out & Hrun & Hs & _).
  exists e', out. rewrite Hrun. simpl in Hs. now rewrite Hs.
Defined.

End RelayInstances.

(** ** More on the sanitising of the declared name *)

Section BasenameFacts.

Import PyStr OsPath Pathlib Fs Ingest Notions.

Lemma rfind_from_app (c : ascii) (s t : string) (i last : Z) :
  rfind_from c (s +:+ t) i last
  = rfind_from c t (i + Z.of_nat (String.length s)) (rfind_from c s i last).
Proof.
  revert i last; induction s as [|a s IH]; intros i last.
  - rewrite app_empty_l. simpl. now rewrite Z.add_0_r.
  - rewrite app_cons. simpl rfind_from at 1. rewrite IH. cbn [String.length rfind_from].
    f_equal. lia.
Qed.

Lemma rfind_from_shift (c : ascii) (t : string) (i last d : Z) :
  rfind_from c t (i + d) (last + d) = (rfind_from c t i last + d)%Z.
Proof.
  revert i last; induction t as [|a t IH]; intros i last; simpl; [reflexivity|].
  replace (i + d + 1)%Z with (i + 1 + d)%Z by lia.
  destruct (Ascii.eqb a c); apply IH.
Qed.

Lemma rfind_lower (c : ascii) (t : string) : (-1 <= rfind c t)%Z.
Proof.
  unfold rfind. destruct (rfind_from_spec c t 0 (-1)) as [[-> _]|[H _]]; lia.
Qed.

Lemma drop_app_length (s t : string) (n : nat) :
  drop (String.length s + n) (s +:+ t) = drop n t.
Proof. induction s as [|a s IH]; [reflexivity|]. rewrite app_cons. exact IH. Qed.

(** Whatever stands before a separator does not count. *)
Lemma basename_app_sep (dir t : string) :
  basename (dir +:+ String "/" t) = basename t.
Proof.
  unfold basename, rfind. rewrite rfind_from_app. simpl rfind_from at 1.
  change (Ascii.eqb "/" sep) with true. cbv iota.
  pose proof (rfind_from_shift sep t 0 (-1) (0 + Z.of_nat (String.length dir) + 1)) as Hs.
  replace (0 + (0 + Z.of_nat (String.length dir) + 1))%Z
    with (0 + Z.of_nat (String.length dir) + 1)%Z in Hs by lia.
  replace (-1 + (0 + Z.of_nat (String.length dir) + 1))%Z
    with (0 + Z.of_nat (String.length dir))%Z in Hs by lia.
  rewrite Hs. pose proof (rfind_lower sep t) as Hlow. unfold rfind in Hlow.
  set (r := rfind_from sep t 0 (-1)) in *.
  replace (Z.to_nat (r + (0 + Z.of_nat (String.length dir) + 1) + 1))
    with (String.length dir + S (Z.to_nat (r + 1))) by lia.
  rewrite drop_app_length. reflexivity.
Qed.

(** A name without separator is its own base name. *)
Lemma basename_plain (t : string) : mem sep t = false -> basename t = t.
Proof.
  intros Ht. unfold basename, rfind.
  destruct (rfind_from_spec sep t 0 (-1)) as [[-> _]|[Hle Hm]]; [reflexivity|].
  exfalso. set (r := rfind_from sep t 0 (-1)) in *.
  assert (Hgen : forall (s : string) (i last : Z),
             mem sep s = false -> rfind_from sep s i last = last).
  { clear. induction s as [|a s IH]; intros i last H; simpl in *; [reflexivity|].
    apply orb_false_iff in H as [-> H]. now apply IH. }
  unfold r in Hle. rewrite (Hgen t 0 (-1) Ht)%Z in Hle. lia.
Qed.

Lemma basename_idempotent (p : string) : basename (basename p) = basename p.
Proof. apply basename_plain, basename_no_sep. Qed.

Lemma write_loop_with_name (fuel : nat) (h : loc) (f : UploadFile) (n : string)
    (total : N) (w : World) :
  write_loop fuel h (with_name f n) total w = write_loop fuel h f total w.
Proof.
  revert f total w; induction fuel as [|fuel IH]; intros f total w; [reflexivity|].
  simpl. unfold read. simpl.
  destruct (split_at _ (body f)) as [chunk rest]. simpl.
  destruct chunk as [|c chunk]; [reflexivity|].
  destruct (write h (c :: chunk) _) as [[u|e] w2]; [|reflexivity].
  exact (IH (mkUploadFile (filename f) rest (tail (short_reads f))) _ w2).
Qed.

Lemma upload_with_name (f : UploadFile) (n : string) (w : World) :
  basename n = basename (filename f) -> upload (with_name f n) w = upload f w.
Proof.
  intros Hn. unfold upload. simpl filename. rewrite Hn.
  destruct (String.eqb _ ""); [reflexivity|].
  destruct (resolve_dest w _) as [dest|]; [|reflexivity].
  unfold save_stream. destruct (open_wb dest w) as [[h|e] w1]; [|reflexivity].
  simpl body. now rewrite write_loop_with_name.
Qed.

End BasenameFacts.

(** ** More properties of the upload endpoint *)

Section UploadMore.

Import PyStr OsPath Pathlib Fs Ingest.

(** X1. What precedes the last separator of the declared name has no
    effect at all: the request is handled exactly as if only the rest had
    been declared. *)
Theorem upload_only_base_name (dir n : string) (data : list Byte.byte)
    (reads : list N) (w : World) :
  upload (mkUploadFile (dir +:+ String "/" n) data reads) w
  = upload (mkUploadFile n data reads) w.
Proof.
  apply (upload_with_name (mkUploadFile n data reads) (dir +:+ String "/" n) w).
  apply basename_app_sep.
Qed.

Lemma node_at_fs (w w' : World) (l : loc) :
  (l <> [] -> fs w' !! l = fs w !! l) -> node_at w' l = node_at w l.
Proof. unfold node_at. destruct l; [reflexivity|]. intros H. now apply H. Qed.

(** X3. The handler keeps what the module's start-up sets up: after any
    request, successful or not, the working directory and the storage
    directory are still directories. *)
Theorem upload_preserves_ready (file : UploadFile) (w w' : World) (resp : Response) :
  ready w -> upload file w = Some (resp, w') -> ready w'.
Proof.
  intros Hready Hup.
  destruct (String.eqb (basename (filename file)) "") eqn:Hb.
  - unfold upload in Hup. rewrite Hb in Hup. now injection Hup as _ <-.
  - apply String.eqb_neq in Hb.
    destruct (upload_spec file w Hready Hb)
      as (n & resp0 & w0 & Hup0 & _ & Hfree & Hc & Hresp).
    rewrite Hup in Hup0. injection Hup0 as <- <-.
    assert (Hframe : forall l, l <> storage w ++ [n] -> fs w' !! l = fs w !! l).
    { intros l Hl. destruct resp as [n' size|code detail].
      - destruct Hresp as (_ & _ & -> & _). now apply lookup_insert_ne.
      - destruct Hresp as (_ & e & _ & [(_ & -> & _)|(_ & _ & t & rest & _ & _ & _ & Hu)]);
          [reflexivity|].
        destruct (unlink_fault (faults w)); destruct Hu as [-> _];
          [now apply lookup_insert_ne|reflexivity]. }
    destruct Hready as [Hcwd Hst]. unfold ready, storage. rewrite Hc. fold (storage w).
    split.
    + rewrite <- Hcwd. apply node_at_fs. intros _. apply Hframe.
      rewrite storage_eq, <- app_assoc. intros E.
      apply (f_equal (@length _)) in E. rewrite length_app in E. simpl in E. lia.
    + rewrite <- Hst. apply node_at_fs. intros _. apply Hframe.
      intros E. apply (f_equal (@length _)) in E. rewrite length_app in E.
      simpl in E. lia.
Qed.

(** X4. Stored files are never touched again: a file stored by a
    successful upload is still there, with the same contents, after any
    later request, and a later successful upload gets a different name. *)
Theorem upload_keeps_earlier (f1 f2 : UploadFile) (w w1 w2 : World)
    (n1 : string) (size1 : N) (resp2 : Response) :
  ready w ->
  upload f1 w = Some (JSONResponse n1 size1, w1) ->
  upload f2 w1 = Some (resp2, w2) ->
  fs w2 !! (storage w ++ [n1]) = Some (File (body f1))
  /\ forall n2 size2, resp2 = JSONResponse n2 size2 ->
       n2 <> n1 /\ fs w2 !! (storage w ++ [n2]) = Some (File (body f2)).
Proof.
  intros Hready Hup1 Hup2.
  assert (Hb1 : basename (filename f1) <> "").
  { intros E. unfold upload in Hup1. apply String.eqb_eq in E. rewrite E in Hup1.
    discriminate. }
  destruct (upload_spec f1 w Hready Hb1)
    as (n & resp & w0 & Hup & _ & _ & Hc1 & Hresp).
  rewrite Hup1 in Hup. injection Hup as <- <-.
  destruct Hresp as (<- & _ & Hfs1 & _).
  assert (Hst : storage w1 = storage w) by (unfold storage; now rewrite Hc1).
  assert (Hl1 : fs w1 !! (storage w ++ [n1]) = Some (File (body f1))).
  { rewrite Hfs1. apply lookup_insert_eq. }
  pose proof (upload_preserves_ready f1 w w1 _ Hready Hup1) as Hready1.
  destruct (String.eqb (basename (filename f2)) "") eqn:Hb2.
  - unfold upload in Hup2. rewrite Hb2 in Hup2. injection Hup2 as <- <-.
    split; [assumption|]. discriminate.
  - apply String.eqb_neq in Hb2.
    destruct (upload_spec f2 w1 Hready1 Hb2)
      as (n & resp & w0 & Hup & _ & Hfree & _ & Hresp).
    rewrite Hup2 in Hup. injection Hup as <- <-. rewrite Hst in Hfree, Hresp.
    assert (Hne : storage w ++ [n1] <> storage w ++ [n]) by congruence.
    destruct resp2 as [n' size|code detail].
    + destruct Hresp as (-> & _ & Hfs2 & _). split.
      * rewrite Hfs2, lookup_insert_ne by congruence. exact Hl1.
      * intros n2 size2 [= <- <-]. split; [congruence|].
        rewrite Hfs2. apply lookup_insert_eq.
    + split; [|discriminate].
      destruct Hresp as (_ & e & _ & [(_ & -> & _)|(_ & _ & t & rest & _ & _ & _ & Hu)]);
        [assumption|].
      destruct (unlink_fault (faults w1)); destruct Hu as [-> _]; [|assumption].
      rewrite lookup_insert_ne by congruence. exact Hl1.
Qed.

End UploadMore.

(** ** The listing and the uploads *)

Section ListingFacts.

Import Pathlib Fs Ingest Listing.

Lemma child_name_spec (dir l : loc) (n : string) :
  child_name dir l = Some n <-> l = dir ++ [n].
Proof.
  unfold child_name. split.
  - destruct (rev l) as [|x rd] eqn:E; [discriminate|].
    case_bool_decide as Hd; [|discriminate]. intros [= ->].
    apply (f_equal (@rev _)) in E. rewrite rev_involutive in E. simpl in E.
    now rewrite E, Hd.
  - intros ->. rewrite rev_app_distr. simpl. rewrite rev_involutive.
    now rewrite bool_decide_eq_true_2.
Qed.

Lemma NoDup_omap_inj {A B : Type} (f : A -> option B) (l : list A) :
  (forall x y z, f x = Some z -> f y = Some z -> x = y) ->
  NoDup l -> NoDup (omap f l).
Proof.
  intros Hinj. induction 1 as [|x l Hx Hnd IH]; simpl; [constructor|].
  destruct (f x) as [z|] eqn:E; [|assumption].
  constructor; [|assumption].
  intros Hz. apply list_elem_of_omap in Hz as (y & Hy & Hfy).
  now rewrite (Hinj x y z E Hfy) in Hx.
Qed.

Lemma storage_is_uploads (w : World) :
  locate (cwd w) (parse "uploads") = storage w.
Proof. reflexivity. Qed.

(** What [os.listdir] hands out for the storage directory. *)
Lemma listdir_storage (w : World) :
  node_at w (storage w) = Some Dir ->
  exists names,
    listdir (parse "uploads") w = Ok names
    /\ NoDup names
    /\ forall n, n ∈ names <-> is_Some (fs w !! (storage w ++ [n])).
Proof.
  intros Hd. unfold listdir. cbv zeta. rewrite storage_is_uploads, Hd.
  eexists. split; [reflexivity|]. split.
  - apply NoDup_omap_inj; [|apply NoDup_fst_map_to_list].
    intros x y z Hx Hy. apply child_name_spec in Hx, Hy. congruence.
  - intros n. rewrite list_elem_of_omap. split.
    + intros (l & Hl & Hc). apply child_name_spec in Hc as ->.
      apply list_elem_of_fmap in Hl as ([l x] & -> & Hlx).
      apply elem_of_map_to_list in Hlx. simpl. eauto.
    + intros [x Hx]. exists (storage w ++ [n]). split; [|now apply child_name_spec].
      apply list_elem_of_fmap. exists (storage w ++ [n], x).
      split; [reflexivity|]. now apply elem_of_map_to_list.
Qed.

(** X5. With the storage directory in place the listing succeeds: it
    holds exactly the names of the entries of the storage directory, each
    once, in ascending order. *)
Theorem files_spec (w : World) :
  ready w ->
  exists names,
    files w = Ok names
    /\ (forall n, n ∈ names <-> is_Some (fs w !! (storage w ++ [n])))
    /\ NoDup names
    /\ Sorted str_le names.
Proof.
  intros [_ Hd]. destruct (listdir_storage w Hd) as (names & Hl & Hnd & Hin).
  exists (sorted names). unfold files. rewrite Hl. split; [reflexivity|].
  unfold sorted. split; [|split].
  - intros n. rewrite merge_sort_Permutation. apply Hin.
  - now rewrite merge_sort_Permutation.
  - apply Sorted_merge_sort, _.
Qed.

(** X6. A successful upload shows in the next listing: the name the
    endpoint answered with was not listed before, is listed afterwards and
    can be selected, and nothing else about the listing changes. *)
Theorem upload_then_listed (file : UploadFile) (w w' : World) (n : string) (size : N) :
  ready w ->
  upload file w = Some (JSONResponse n size, w') ->
  exists before after,
    files w = Ok before /\ files w' = Ok after
    /\ (n ∉ before)
    /\ (forall m, m ∈ after <-> m = n \/ m ∈ before)
    /\ options w' = Ok ("-- pilih --" :: after).
Proof.
  intros Hready Hup.
  pose proof (upload_preserves_ready file w w' _ Hready Hup) as Hready'.
  assert (Hb : OsPath.basename (filename file) <> "").
  { intros E. unfold upload in Hup. apply String.eqb_eq in E. rewrite E in Hup.
    discriminate. }
  destruct (upload_spec file w Hready Hb)
    as (n0 & resp & w0 & Hup0 & _ & Hfree & Hc & Hresp).
  rewrite Hup in Hup0. injection Hup0 as <- <-.
  destruct Hresp as (<- & _ & Hfs & _).
  assert (Hst : storage w' = storage w) by (unfold storage; now rewrite Hc).
  destruct (files_spec w Hready) as (before & Hf & Hin & _).
  destruct (files_spec w' Hready') as (after & Hf' & Hin' & _).
  exists before, after. split; [assumption|]. split; [assumption|]. split; [|split].
  - rewrite Hin, Hfree. intros [x Hx]. discriminate.
  - intros m. rewrite Hin', Hin, Hst, Hfs. destruct (decide (m = n)) as [->|Hne].
    + rewrite lookup_insert_eq. split; eauto.
    + rewrite lookup_insert_ne by (intros E; apply app_inv_head in E; congruence).
      split; [auto|]. intros [?|?]; [congruence|assumption].
  - unfold options. now rewrite Hf'.
Qed.

(** X7. A request that fails leaves the listing exactly as it was,
    unless the removal of the partial file fails as well: no partial file
    becomes selectable. *)
Theorem failed_upload_not_listed (file : UploadFile) (w w' : World)
    (code : nat) (detail : string) :
  ready w -> unlink_fault (faults w) = None ->
  upload file w = Some (HTTPException code detail, w') ->
  fs w' = fs w /\ files w' = files w /\ options w' = options w.
Proof.
  intros Hready Hu Hup.
  assert (Hsame : fs w' = fs w /\ cwd w' = cwd w).
  { destruct (String.eqb (OsPath.basename (filename file)) "") eqn:Hb.
    - unfold upload in Hup. rewrite Hb in Hup. injection Hup as _ _ <-. auto.
    - apply String.eqb_neq in Hb.
      destruct (upload_spec file w Hready Hb)
        as (n0 & resp & w0 & Hup0 & _ & _ & Hc & Hresp).
      rewrite Hup in Hup0. injection Hup0 as <- <-. split; [|assumption].
      destruct Hresp as (_ & e & _ & [(_ & -> & _)|(_ & _ & t & rest & _ & _ & _ & Hun)]);
        [reflexivity|].
      rewrite Hu in Hun. now destruct Hun as [-> _]. }
  destruct Hsame as [Hfs Hc]. split; [assumption|].
  assert (Hfiles : files w' = files w).
  { unfold files, listdir, node_at. cbv zeta. now rewrite Hfs, Hc. }
  split; [assumption|]. unfold options. now rewrite Hfiles.
Qed.

End ListingFacts.

(** ** From a listed name to the source path of the relay *)

Section SourcePathFacts.

Import PyStr OsPath Pathlib Relay Notions.

Lemma str_app_assoc (a b c : string) : (a +:+ b) +:+ c = a +:+ (b +:+ c).
Proof. induction a as [|x a IH]; [reflexivity|]. rewrite !app_cons. now rewrite IH. Qed.

Lemma split_sep_app_sep (c r : string) :
  mem sep c = false -> split_sep (c +:+ String "/" r) = c :: split_sep r.
Proof.
  induction c as [|a c IH]; intros Hc.
  - reflexivity.
  - rewrite app_cons. simpl in Hc |- *. apply orb_false_iff in Hc as [Ha Hc].
    rewrite Ha, (IH Hc). reflexivity.
Qed.

Lemma join_sep_cons (c : string) (comps : list string) :
  comps <> [] -> join_sep (c :: comps) = c +:+ String "/" (join_sep comps).
Proof. destruct comps; [congruence|reflexivity]. Qed.

(** Splitting undoes joining. *)
Lemma split_join_sep (comps : list string) :
  comps <> [] -> Forall (fun c => mem sep c = false) comps ->
  split_sep (join_sep comps) = comps.
Proof.
  intros Hne Hall. induction Hall as [|c comps Hc Hall IH]; [congruence|].
  destruct comps as [|c' comps].
  - simpl. now apply split_sep_plain.
  - rewrite join_sep_cons by discriminate.
    rewrite (split_sep_app_sep _ _ Hc), IH by discriminate. reflexivity.
Qed.

Lemma join_sep_app (l1 l2 : list string) :
  l1 <> [] -> l2 <> [] ->
  join_sep (l1 ++ l2) = join_sep l1 +:+ String "/" (join_sep l2).
Proof.
  intros H1 H2. induction l1 as [|c l1 IH]; [congruence|].
  destruct l1 as [|c' l1].
  - simpl app. now rewrite join_sep_cons.
  - change ((c :: c' :: l1) ++ l2) with (c :: (c' :: l1) ++ l2).
    rewrite !join_sep_cons by (try discriminate; destruct l2; discriminate).
    rewrite IH by discriminate.
    rewrite str_app_assoc, app_cons. reflexivity.
Qed.

Lemma norm_comps_proper (rooted : bool) (comps acc : list string) :
  Forall proper comps -> norm_comps rooted comps acc = rev acc ++ comps.
Proof.
  intros Hall. revert acc. induction Hall as [|c comps (Hs & He & Hd & Hdd) Hall IH];
    intros acc; simpl.
  - now rewrite app_nil_r.
  - apply String.eqb_neq in He, Hd, Hdd. rewrite He, Hd, Hdd. simpl.
    rewrite IH. simpl. now rewrite <- app_assoc.
Qed.

(** What the last character of a string is. *)
Lemma drop_last_char (s : string) (a : Ascii.ascii) :
  drop (String.length (s +:+ String a "") - 1) (s +:+ String a "") = String a "".
Proof.
  rewrite app_length. simpl.
  replace (String.length s + 1 - 1) with (String.length s + 0) by lia.
  now rewrite drop_app_length.
Qed.

Lemma last_char (s : string) :
  s <> "" -> exists s' a, s = s' +:+ String a "".
Proof.
  induction s as [|a s IH]; [congruence|]. intros _.
  destruct s as [|b s].
  - exists "", a. reflexivity.
  - destruct IH as (s' & z & E); [discriminate|].
    exists (String a s'), z. rewrite app_cons. now rewrite E.
Qed.

(** A non-empty string without separator put behind anything: the whole
    does not end in a separator. *)
Lemma no_trailing_sep (pre c : string) :
  mem sep c = false -> c <> "" ->
  String.eqb (drop (String.length (pre +:+ c) - 1) (pre +:+ c)) "/" = false.
Proof.
  intros Hc Hne. destruct (last_char c Hne) as (c' & a & ->).
  assert (Ha : a <> sep).
  { intros ->. rewrite mem_app in Hc. simpl in Hc.
    now rewrite orb_true_r in Hc. }
  rewrite <- str_app_assoc, drop_last_char. apply String.eqb_neq.
  intros [= ->]. now apply Ha.
Qed.

Lemma join_sep_last (comps : list string) (c : string) :
  exists pre, join_sep (comps ++ [c]) = pre +:+ c.
Proof.
  destruct comps as [|c0 comps].
  - exists "". reflexivity.
  - rewrite join_sep_app by discriminate. simpl join_sep at 2.
    exists (join_sep (c0 :: comps) +:+ "/").
    now rewrite str_app_assoc.
Qed.

(** [normpath] leaves a rooted path of proper components alone. *)
Lemma normpath_proper (comps : list string) :
  comps <> [] -> Forall proper comps ->
  normpath (String "/" (join_sep comps)) = String "/" (join_sep comps).
Proof.
  intros Hne Hall.
  assert (Hplain : Forall (fun c => mem sep c = false) comps).
  { eapply Forall_impl; [exact Hall|]. now intros c (H & _). }
  assert (Hfirst : exists a r, join_sep comps = String a r /\ Ascii.eqb a sep = false).
  { destruct Hall as [|c comps (Hs & He & _) Hall]; [congruence|].
    destruct c as [|a c]; [congruence|]. simpl in Hs.
    apply orb_false_iff in Hs as [Ha _].
    destruct comps; [exists a, c; auto|].
    rewrite join_sep_cons by discriminate. rewrite app_cons. eauto. }
  destruct Hfirst as (a & r & Hj & Ha).
  unfold normpath. change (Ascii.eqb "/" sep) with true. cbv iota.
  change (split_sep (String "/" (join_sep comps))) with ("" :: split_sep (join_sep comps)).
  rewrite (split_join_sep comps Hne Hplain).
  assert (Hn : norm_comps true ("" :: comps) [] = comps).
  { simpl. now rewrite norm_comps_proper. }
  rewrite Hj. destruct r as [|c2 r]; rewrite Ha; simpl negb; cbv iota;
    rewrite <- ?Hj; simpl Nat.eqb; simpl negb; rewrite Hn; reflexivity.
Qed.

(** X8. The source path the relay is started with: for a selected name
    that is a proper directory entry other than the placeholder, and a
    working directory of proper components, it is the absolute path of
    that entry of [uploads] under the working directory. *)
Theorem video_path_of_entry (e : Env) (i : Inputs) :
  Forall proper (cwd e) -> proper (selected_file i) ->
  selected_file i <> "-- pilih --" ->
  video_path e i
  = Some (String "/" (join_sep (cwd e ++ ["uploads"; selected_file i]))).
Proof.
  intros Hcwd Hn Hph. pose proof Hn as (Hs & He & Hd & Hdd).
  unfold video_path. apply String.eqb_neq in Hph. rewrite Hph.
  pose proof He as He'. apply String.eqb_neq in He'. rewrite He'. simpl andb.
  cbv iota. f_equal.
  set (n := selected_file i) in *.
  assert (Hj : join "uploads" n = String "u" ("ploads/" +:+ n)).
  { destruct n as [|a n']; [congruence|]. simpl in Hs.
    apply orb_false_iff in Hs as [Ha _]. unfold join. rewrite Ha. reflexivity. }
  rewrite Hj. unfold abspath. change (Ascii.eqb "u" sep) with false. cbv iota.
  assert (Hall : Forall proper (cwd e ++ ["uploads"; n])).
  { apply Forall_app. split; [assumption|].
    repeat constructor; try assumption; try discriminate. }
  rewrite <- (normpath_proper (cwd e ++ ["uploads"; n])); [|now destruct (cwd e)|assumption].
  f_equal. unfold getcwd, join. change (Ascii.eqb "u" sep) with false. cbv iota.
  change ("/" +:+ join_sep (cwd e)) with (String "/" (join_sep (cwd e))).
  cbv iota.
  destruct (cwd e) as [|c0 comps] eqn:Ecwd.
  - reflexivity.
  - destruct (exists_last (l := c0 :: comps)) as (front & c & Efc); [discriminate|].
    assert (Hc : proper c).
    { rewrite Efc in Hcwd. apply Forall_app in Hcwd as [_ Hc]. now inversion Hc. }
    destruct Hc as (Hcs & Hce & _).
    destruct (join_sep_last front c) as (pre & Hpre).
    rewrite Efc, Hpre.
    change (String "/" (pre +:+ c)) with (String "/" pre +:+ c).
    rewrite (no_trailing_sep (String "/" pre) c Hcs Hce).
    change (String "/" pre +:+ c) with (String "/" (pre +:+ c)).
    rewrite <- Hpre.
    rewrite (join_sep_app (front ++ [c]) ["uploads"; n])
      by (try discriminate; destruct front; discriminate).
    rewrite app_cons. reflexivity.
Qed.

End SourcePathFacts.

(** ** From an upload to the relay *)

Section UploadToRelay.

Import PyStr OsPath Pathlib Fs Ingest Listing Notions.

(** The names the resolution hands out are proper directory entries. *)
Lemma resolve_dest_proper (w : World) (filename n : string) :
  ready w -> mem sep filename = false -> filename <> "" ->
  resolve_dest w filename = Some (mkPath false ["uploads"; n]) ->
  proper n
  /\ (path_exists w (div UPLOAD_DIR filename) = false -> n = filename).
Proof.
  intros Hready Hplain Hne Hres.
  destruct (resolve_dest_spec w filename Hready Hplain Hne)
    as (n0 & Hres0 & _ & _ & Hs & Hcase).
  rewrite Hres in Hres0. injection Hres0 as <-.
  destruct Hcase as [[Hex ->]|[Hex (k & _ & -> & _)]].
  - split; [|auto]. repeat split; try assumption.
    + intros ->. rewrite dot_exists in Hex by assumption. discriminate.
    + intros ->. rewrite dotdot_exists in Hex by assumption. discriminate.
  - split; [|congruence].
    repeat split; try assumption; now apply candidate_not_special.
Qed.

(** X9. The file an upload stores is the file the relay reads: when the
    name the endpoint answered with is selected, the source path handed
    to the relay spells out, component by component, the location that
    holds the uploaded body.  (The controller and the backend share the
    working directory; a name equal to the placeholder of the select box
    is the one exception.) *)
Theorem uploaded_file_is_relay_source (file : UploadFile) (w w' : World)
    (n : string) (size : N) (e : Relay.Env) (i : Relay.Inputs) :
  ready w -> Forall proper (cwd w) -> Relay.cwd e = cwd w ->
  upload file w = Some (JSONResponse n size, w') ->
  Relay.selected_file i = n -> n <> "-- pilih --" ->
  Relay.video_path e i = Some (String "/" (Relay.join_sep (storage w ++ [n])))
  /\ fs w' !! (storage w ++ [n]) = Some (File (body file)).
Proof.
  intros Hready Hcwd Hsame Hup Hsel Hph.
  assert (Hb : basename (filename file) <> "").
  { intros E. unfold upload in Hup. apply String.eqb_eq in E. rewrite E in Hup.
    discriminate. }
  destruct (upload_spec file w Hready Hb)
    as (n0 & resp & w0 & Hup0 & Hres & _ & _ & Hresp).
  rewrite Hup in Hup0. injection Hup0 as <- <-.
  destruct Hresp as (<- & _ & Hfs & _).
  destruct (resolve_dest_proper w _ n Hready (basename_no_sep _) Hb Hres) as [Hn _].
  split.
  - rewrite video_path_of_entry; rewrite ?Hsame, ?Hsel; try assumption.
    rewrite storage_eq, <- app_assoc. reflexivity.
  - rewrite Hfs. apply lookup_insert_eq.
Qed.

(** X10. The placeholder of the select box is a legal file name: the
    endpoint stores a file declared as ["-- pilih --"] under that name and
    the listing shows it, but selecting it counts as selecting nothing, so
    a start answers with the request to pick a file and launches nothing. *)
Theorem placeholder_name_never_relayed (data : list Byte.byte) (reads : list N)
    (w : World) (e : Relay.Env) (i : Relay.Inputs) (s : Relay.slot)
    (log_lines : list string) :
  ready w -> open_fault (faults w) = None ->
  (forall x, ~ In (Some x) (write_faults (faults w))) ->
  fs w !! (storage w ++ ["-- pilih --"]) = None ->
  Relay.selected_file i = "-- pilih --" ->
  (exists w' names,
     upload (mkUploadFile "-- pilih --" data reads) w
     = Some (JSONResponse "-- pilih --" (N.of_nat (length data)), w')
     /\ files w' = Ok names /\ "-- pilih --" ∈ names)
  /\ Relay.start i s e log_lines
     = (s, e, log_lines,
        [Relay.st_error "Pilih file dulu dari dropdown 'File yang tersedia di server'."]).
Proof.
  intros Hready Hof Hwf Hfree Hsel. split.
  - set (file := mkUploadFile "-- pilih --" data reads).
    assert (Hb : basename (filename file) <> "") by (vm_compute; discriminate).
    destruct (upload_spec file w Hready Hb)
      as (n & resp & w' & Hup & Hres & _ & Hc & Hresp).
    assert (Hex : path_exists w (div UPLOAD_DIR (basename (filename file))) = false).
    { change (basename (filename file)) with "-- pilih --".
      rewrite div_upload_dir_plain by (try reflexivity; discriminate).
      unfold path_exists. rewrite locate_plain by discriminate.
      now rewrite node_at_child, Hfree. }
    destruct (resolve_dest_proper w _ n Hready (basename_no_sep _) Hb Hres) as [_ Hn].
    specialize (Hn Hex). change (basename (filename file)) with "-- pilih --" in Hn.
    subst n. destruct resp as [n' size|code detail].
    + destruct Hresp as (-> & -> & Hfs & _).
      pose proof (upload_preserves_ready file w w' _ Hready Hup) as Hready'.
      destruct (files_spec w' Hready') as (names & Hf & Hin & _).
      exists w', names. split; [exact Hup|]. split; [exact Hf|].
      apply Hin. unfold storage. rewrite Hc. fold (storage w).
      rewrite Hfs, lookup_insert_eq. eauto.
    + exfalso. destruct Hresp as (_ & x & _ & [(Hof' & _)|(_ & Hin & _)]).
      * congruence.
      * now apply Hwf in Hin.
  - unfold Relay.start, Relay.video_path. rewrite Hsel. reflexivity.
Qed.

End UploadToRelay.

(** ** More properties of the relay controller *)

Section RelayMore.

Import Relay Notions.

Lemma is_alive_lt (pid : nat) (e : Env) :
  is_alive pid e = true -> pid < length (procs e).
Proof.
  unfold is_alive. destruct (procs e !! pid) eqn:E; [|discriminate].
  intros _. eapply lookup_lt_Some. exact E.
Qed.

Lemma is_alive_kill_ne (pid pid' : nat) (e : Env) :
  pid <> pid' -> is_alive pid' (kill pid e) = is_alive pid' e.
Proof.
  intros Hne. unfold is_alive, kill. simpl.
  now rewrite list_lookup_alter_ne.
Qed.

Lemma kill_length (pid : nat) (e : Env) :
  length (procs (kill pid e)) = length (procs e).
Proof. unfold kill. simpl. apply length_alter. Qed.

(** What the start branch can do to the slot and the table. *)
Lemma start_cases (i : Inputs) (s : slot) (e : Env) (log_lines : list string) :
  (exists lines out, start i s e log_lines = (s, e, lines, out))
  \/ (exists cmd lines out,
        start i s e log_lines
        = (Popen (length (procs e)),
           mkEnv (cwd e) (procs e ++ [mkProcess cmd true]) (ffmpeg_on_path e),
           lines, out)).
Proof.
  unfold start. destruct (video_path e i) as [vp|]; [|eauto].
  destruct (String.eqb (stream_key i) ""); [eauto|].
  unfold spawn. destruct (ffmpeg_on_path e); simpl; eauto 6.
Qed.

(** One run: a live process whose handle is not in the slot stays alive
    and stays out of the slot. *)
Lemma run_keeps_other (i : Inputs) (s : slot) (e : Env) (pid : nat) :
  valid s e -> is_alive pid e = true -> s <> Popen pid ->
  valid (run_streamlit_app i s e).1.1 (run_streamlit_app i s e).1.2
  /\ is_alive pid (run_streamlit_app i s e).1.2 = true
  /\ (run_streamlit_app i s e).1.1 <> Popen pid.
Proof.
  intros Hv Ha Hs. pose proof (is_alive_lt _ _ Ha) as Hlt.
  unfold run_streamlit_app.
  assert (Hv0 : valid (init_slot s) e) by (intros p; destruct s; try discriminate; apply Hv).
  assert (Hs0 : init_slot s <> Popen pid) by (destruct s; try discriminate; exact Hs).
  assert (Hstart : exists s1 e1 lines1 out1,
             (if start_btn i then start i (init_slot s) e [] else (init_slot s, e, [], []))
             = (s1, e1, lines1, out1)
             /\ valid s1 e1 /\ is_alive pid e1 = true /\ s1 <> Popen pid).
  { destruct (start_btn i); [|eauto 10].
    destruct (start_cases i (init_slot s) e []) as [(l & o & ->)|(cmd & l & o & ->)];
      [eauto 10|].
    do 4 eexists. split; [reflexivity|]. split; [|split].
    - intros p [= <-]. simpl. rewrite length_app. simpl. lia.
    - unfold is_alive in *. simpl. now rewrite lookup_app_l.
    - intros [= E]. lia. }
  destruct Hstart as (s1 & e1 & lines1 & out1 & -> & Hv1 & Ha1 & Hs1).
  destruct (stop_btn i); [|simpl; auto].
  unfold stop. destruct s1 as [| |p]; simpl; auto.
  split; [discriminate|]. split; [|discriminate].
  rewrite is_alive_kill_ne; [assumption|congruence].
Qed.

(** X11. The controller only ever kills the process whose handle is in
    the slot, and a handle that has left the slot never comes back: a
    live process that is not in the slot stays alive and out of the slot
    through any series of runs, whatever buttons are pressed. *)
Theorem lost_handle_never_killed (inputs : list Inputs) (s : slot) (e : Env)
    (pid : nat) :
  valid s e -> is_alive pid e = true -> s <> Popen pid ->
  valid (reruns inputs s e).1.1 (reruns inputs s e).1.2
  /\ is_alive pid (reruns inputs s e).1.2 = true
  /\ (reruns inputs s e).1.1 <> Popen pid.
Proof.
  revert s e; induction inputs as [|i inputs IH]; intros s e Hv Ha Hs; [simpl; auto|].
  destruct (run_keeps_other i s e pid Hv Ha Hs) as (Hv1 & Ha1 & Hs1).
  simpl. destruct (run_streamlit_app i s e) as [[s1 e1] out1]. simpl in *.
  specialize (IH s1 e1 Hv1 Ha1 Hs1).
  destruct (reruns inputs s1 e1) as [[s2 e2] outs]. exact IH.
Qed.

(** X12. A start followed by a stop: the slot is empty again, the table
    has grown by exactly the process just launched, now dead, and every
    process launched before is as it was. *)
Theorem start_then_stop (i_start i_stop : Inputs) (s : slot) (e : Env) (vp : string) :
  valid s e ->
  start_btn i_start = true -> stop_btn i_start = false ->
  video_path e i_start = Some vp -> stream_key i_start <> "" ->
  ffmpeg_on_path e = true -> stop_only i_stop ->
  (reruns [i_start; i_stop] s e).1.1 = PyNone
  /\ procs (reruns [i_start; i_stop] s e).1.2
     = procs e
       ++ [mkProcess (build_cmd vp (stream_key i_start) (is_shorts i_start)) false]
  /\ forall pid, pid < length (procs e) ->
       is_alive pid (reruns [i_start; i_stop] s e).1.2 = is_alive pid e.
Proof.
  intros Hv Hsb Hpb Hvp Hkey Hff [Hsb' Hpb'].
  apply String.eqb_neq in Hkey.
  assert (Hprocs : procs (reruns [i_start; i_stop] s e).1.2
                   = procs e
                     ++ [mkProcess (build_cmd vp (stream_key i_start) (is_shorts i_start))
                                   false]
                   /\ (reruns [i_start; i_stop] s e).1.1 = PyNone).
  { simpl. unfold run_streamlit_app. rewrite Hsb, Hpb, Hsb', Hpb'.
    unfold start. rewrite Hvp, Hkey. unfold spawn. rewrite Hff. simpl.
    split; [|reflexivity].
    rewrite (alter_app_r_alt set_dead (procs e)) by lia.
    now rewrite Nat.sub_diag. }
  destruct Hprocs as [Hp Hs]. split; [assumption|]. split; [assumption|].
  intros pid Hpid. unfold is_alive. rewrite Hp. now rewrite lookup_app_l.
Qed.

(** X13. The log box never shows more than the last 30 lines: after a
    line is logged, the text shown is the join of a suffix of the lines
    logged in this run, as long as there are at most 30 of them and of 30
    lines otherwise, and the line just logged is the last one shown. *)
Theorem append_log_window (line : string) (log_lines : list string) :
  exists shown,
    append_log line log_lines
    = (log_lines ++ [line], log_box_text (join_nl shown))
    /\ shown `suffix_of` (log_lines ++ [line])
    /\ length shown = Nat.min 30 (length (log_lines ++ [line]))
    /\ last shown = Some line.
Proof.
  unfold append_log. cbv zeta.
  set (lines := log_lines ++ [line]).
  exists (List.skipn (length lines - 30) lines).
  split; [reflexivity|]. split; [|split].
  - exists (List.firstn (length lines - 30) lines). symmetry. apply firstn_skipn.
  - rewrite length_skipn. lia.
  - assert (Hlen : length lines = S (length log_lines)).
    { unfold lines. rewrite length_app. simpl. lia. }
    unfold lines at 2.
    rewrite skipn_app.
    replace (length lines - 30 - length log_lines) with 0 by lia. simpl.
    apply last_snoc.
Qed.

End RelayMore.

(** ** The launcher *)

Section LauncherFacts.

Import Launcher.

Lemma supervise_running (k : nat) (rest : list tick) :
  supervise (replicate k StillRunning ++ rest)
  = match supervise rest with
    | Some t => Some (concat (replicate k [Sleep 1000; Poll]) ++ t)
    | None => None
    end.
Proof.
  induction k as [|k IH]; simpl.
  - now destruct (supervise rest).
  - rewrite IH. now destruct (supervise rest).
Qed.

(** X14. The launcher polls the interface process once a second and
    stops at the first poll that finds it ended, or at an interrupt: what
    comes later is never looked at; on both ways out it calls terminate
    once, whether that raises or not, and then announces its exit.  While
    the process runs and nobody interrupts, the launcher goes on.  Started
    with [--streamlit] it only runs the interface. *)
Theorem launcher_supervision (argv : list string) (executable file : string)
    (pid k : nat) (t : tick) (rest : list tick) (raises : bool) :
  t <> StillRunning ->
  ("--streamlit" ∈ argv ->
   main argv executable file pid (replicate k StillRunning ++ t :: rest) raises
   = Some [RunStreamlitApp])
  /\ ("--streamlit" ∉ argv ->
      main argv executable file pid (replicate k StillRunning) raises = None
      /\ exists before,
          main argv executable file pid (replicate k StillRunning ++ t :: rest) raises
          = Some (before
                  ++ concat (replicate k [Sleep 1000; Poll])
                  ++ match t with
                     | CtrlC => [Sleep 1000; Print "Interrupted — shutting down."]
                     | _ => [Sleep 1000; Poll; Print "Streamlit process ended."]
                     end
                  ++ [Terminate raises; Print "Launcher exiting."])
            /\ In StartFastapiThread before
            /\ In (SpawnStreamlit
                     [executable; "-m"; "streamlit"; "run"; file; "--";
                      "--streamlit"; "--server.port"; "8501"]) before).
Proof.
  intros Ht. split.
  - intros Hin. unfold main. now rewrite bool_decide_eq_true_2.
  - intros Hnin. unfold main. rewrite bool_decide_eq_false_2 by assumption. split.
    + rewrite <- (app_nil_r (replicate k StillRunning)), supervise_running. reflexivity.
    + rewrite supervise_running.
      assert (Hs : supervise (t :: rest)
                   = Some match t with
                          | CtrlC => [Sleep 1000; Print "Interrupted — shutting down."]
                          | _ => [Sleep 1000; Poll; Print "Streamlit process ended."]
                          end).
      { destruct t; [congruence|reflexivity|reflexivity]. }
      rewrite Hs. eexists. split.
      * rewrite <- app_assoc. reflexivity.
      * split; [right; now left|]. right. right. right. right. now left.
Qed.

End LauncherFacts.

(** ** Uploading the same name again and again *)

Section RepeatedUploads.

Import PyStr OsPath Pathlib Fs Ingest Notions.

Lemma write_loop_quiet (fuel : nat) (h : loc) (file : UploadFile) (total : N)
    (w w' : World) (r : res N) :
  write_loop fuel h file total w = Some (r, w') -> quiet w -> quiet w'.
Proof.
  revert file total w; induction fuel as [|fuel IH]; intros file total w H Hq;
    [discriminate|].
  simpl in H. destruct (read file CHUNK_SIZE) as [chunk file'].
  destruct chunk as [|c chunk]; [now injection H as _ <-|].
  destruct (write h (c :: chunk) (log (EvRead CHUNK_SIZE (c :: chunk)) w))
    as [[u|e] w2] eqn:Hw;
    destruct (write_spec _ _ _ _ _ Hw) as (_ & Hof & _ & Hwf & Hres).
  - apply (IH _ _ _ H). destruct Hq as [Hq1 Hq2]. split; [simpl in Hof; congruence|].
    intros e Hin. rewrite Hwf in Hin. simpl in Hin. apply (Hq2 e).
    destruct (write_faults (faults w)); [destruct Hin|now right].
  - destruct Hres as (_ & _ & Hin). simpl in Hin. destruct Hq as [_ Hq2].
    now apply Hq2 in Hin.
Qed.

Lemma candidate_longer (fn : string) (k : nat) :
  String.length fn
  < String.length (candidate_name (splitext fn).1 (splitext fn).2 k).
Proof.
  destruct (splitext fn) as [base ext] eqn:Hsp. simpl.
  rewrite <- (splitext_concat _ _ _ Hsp). unfold candidate_name.
  rewrite !app_length. simpl. lia.
Qed.

Lemma nth_name_inj (fn : string) (j k : nat) :
  nth_name fn j = nth_name fn k -> j = k.
Proof.
  destruct j as [|j], k as [|k]; simpl; intros E.
  - reflexivity.
  - pose proof (candidate_longer fn (S k)) as H. rewrite <- E in H. lia.
  - pose proof (candidate_longer fn (S j)) as H. rewrite E in H. lia.
  - now apply candidate_inj in E.
Qed.

Lemma plain_name_exists (w : World) (fn : string) :
  proper fn ->
  path_exists w (div UPLOAD_DIR fn) = true
  <-> is_Some (fs w !! (storage w ++ [fn])).
Proof.
  intros (Hs & He & Hd & Hdd).
  rewrite div_upload_dir_plain by assumption.
  unfold path_exists. rewrite locate_plain, node_at_child by assumption.
  destruct (fs w !! _); split; intros H; eauto; try discriminate.
  now destruct H.
Qed.

Lemma open_wb_quiet (p : Path) (w w1 : World) (r : res loc) :
  open_wb p w = (r, w1) -> faults w1 = faults w.
Proof.
  unfold open_wb. cbv zeta. destruct (open_fault (faults w)); [now intros [= _ <-]|].
  destruct (locate (cwd w) p) as [|x l]; [now intros [= _ <-]|].
  destruct (node_at w (removelast (x :: l))) as [[d|]|];
    destruct (node_at w (x :: l)) as [[d'|]|]; now intros [= _ <-].
Qed.

Lemma upload_next_name (file : UploadFile) (fn : string) (m : nat) (w : World) :
  OsPath.basename (filename file) = fn -> proper fn ->
  taken_up_to fn m w ->
  exists w',
    upload file w
    = Some (JSONResponse (nth_name fn m) (N.of_nat (length (body file))), w')
    /\ taken_up_to fn (S m) w'.
Proof.
  intros Hfn Hproper (Hready & Hq & Htaken & Hfree).
  pose proof Hproper as (Hplain & Hne & _).
  assert (Hb : basename (filename file) <> "") by now rewrite Hfn.
  destruct (upload_spec file w Hready Hb)
    as (n & resp & w' & Hup & Hres & Hnfree & Hc & Hresp).
  rewrite Hfn in Hres.
  (* the name resolved is the [m]-th *)
  assert (Hn : n = nth_name fn m).
  { destruct (resolve_dest_spec w fn Hready Hplain Hne)
      as (n0 & Hres0 & _ & _ & _ & Hcase).
    rewrite Hres in Hres0. injection Hres0 as <-.
    pose proof (plain_name_exists w fn Hproper) as Hfn_exists.
    destruct (splitext fn) as [base ext] eqn:Hsp.
    destruct (splitext_no_sep _ _ _ Hplain Hsp) as [Hpb Hpe].
    destruct Hcase as [[Hex ->]|[Hex (k & Hk & -> & Hkfree & Hkmin)]].
    - destruct m as [|m]; [reflexivity|]. exfalso.
      assert (Ht : path_exists w (div UPLOAD_DIR fn) = true).
      { apply Hfn_exists. apply (Htaken 0). lia. }
      congruence.
    - simpl in Hkfree, Hkmin |- *.
      apply (cand_exists_false w base ext Hpb Hpe) in Hkfree.
      unfold cand_loc in Hkfree.
      destruct m as [|m].
      + exfalso. apply Hfn_exists in Hex as [x Hx].
        specialize (Hfree 0 (Nat.le_refl _)). simpl in Hfree. congruence.
      + assert (Hkm : k = S m); [|rewrite Hkm; unfold nth_name; now rewrite Hsp].
        destruct (Nat.lt_trichotomy k (S m)) as [Hlt|[->|Hgt]]; [|reflexivity|].
        * exfalso. destruct (Htaken k Hlt) as [x Hx].
          destruct k as [|k]; [lia|]. simpl in Hx. rewrite Hsp in Hx.
          simpl in Hx. congruence.
        * exfalso. assert (Hm : 1 <= S m < k) by lia.
          apply Hkmin in Hm.
          apply (cand_exists_true w base ext Hpb Hpe) in Hm as [x Hx].
          specialize (Hfree (S m) (Nat.le_refl _)). simpl in Hfree. rewrite Hsp in Hfree.
          unfold cand_loc in Hx. simpl in Hfree. congruence. }
  subst n.
  destruct resp as [n' size|code detail].
  - destruct Hresp as (-> & -> & Hfs & _). exists w'. split; [exact Hup|].
    assert (Hst : storage w' = storage w) by (unfold storage; now rewrite Hc).
    split; [eapply upload_preserves_ready; eassumption|]. split; [|split].
    + (* quiet *)
      unfold upload in Hup. rewrite Hfn in Hup.
      apply String.eqb_neq in Hne. rewrite Hne, Hres in Hup.
      unfold save_stream in Hup.
      destruct (open_wb _ w) as [[h|e] w1] eqn:Ho; [|discriminate].
      destruct (write_loop _ h file 0 w1) as [[[t|e] w2]|] eqn:Hl; try discriminate.
      injection Hup as _ <-. apply (write_loop_quiet _ _ _ _ _ _ _ Hl).
      unfold quiet. now rewrite (open_wb_quiet _ _ _ _ Ho).
    + intros j Hj. rewrite Hst, Hfs.
      destruct (decide (j = m)) as [->|Hjm]; [rewrite lookup_insert_eq; eauto|].
      rewrite lookup_insert_ne.
      * apply Htaken. lia.
      * intros E. apply app_inv_head in E. injection E as E.
        apply nth_name_inj in E. lia.
    + intros j Hj. rewrite Hst, Hfs, lookup_insert_ne.
      * apply Hfree. lia.
      * intros E. apply app_inv_head in E. injection E as E.
        apply nth_name_inj in E. lia.
  - exfalso. destruct Hq as [Hq1 Hq2].
    destruct Hresp as (_ & e & _ & [(Hof' & _)|(_ & Hin & _)]).
    + congruence.
    + now apply Hq2 in Hin.
Qed.

(** X15. Uploading one name over and over, to a storage directory that
    has none of the names involved and with no I/O fault: every request
    succeeds, the first is stored under the name itself and the [m]-th
    after it under [base(m)ext], each answer carrying the length of its
    own body. *)
Theorem repeated_uploads_count_up (requests : list UploadFile) (fn : string)
    (m : nat) (w : World) :
  proper fn ->
  Forall (fun file => OsPath.basename (filename file) = fn) requests ->
  taken_up_to fn m w ->
  exists w',
    uploads requests w
    = Some (imap (fun idx file =>
                    JSONResponse (nth_name fn (m + idx))
                                 (N.of_nat (length (body file))))
                 requests, w')
    /\ taken_up_to fn (m + length requests) w'.
Proof.
  intros Hproper Hall. revert m w.
  induction Hall as [|file rest Hfile Hall IH]; intros m w Hinv.
  - exists w. simpl. rewrite Nat.add_0_r. auto.
  - destruct (upload_next_name file fn m w Hfile Hproper Hinv) as (w1 & Hup & Hinv1).
    destruct (IH (S m) w1 Hinv1) as (w2 & Hups & Hinv2).
    exists w2. simpl. rewrite Hup, Hups, Nat.add_0_r. split.
    + do 2 f_equal. f_equal. apply imap_ext. intros idx file' _. simpl.
      now rewrite Nat.add_succ_r.
    + now rewrite Nat.add_succ_r.
Qed.

End RepeatedUploads.

(** ** Runs without a button *)

Section IdleRuns.

Import Relay Notions.

(** X16. Runs in which no button is pressed (the script runs again on
    every other interaction with a widget) neither launch nor kill
    anything and show nothing: the table of processes stays as it is, and
    so does the handle, except that the first such run sets a missing
    slot to [None].  This holds from every state of the slot, the missing
    key of a first load included. *)
Theorem reruns_without_button (inputs : list Inputs) (s : slot) (e : Env) :
  Forall no_button inputs ->
  reruns inputs s e
  = (match inputs with
     | [] => s
     | _ :: _ => init_slot s
     end, e, map (fun _ => []) inputs).
Proof.
  intros Hall. revert s. induction Hall as [|i inputs [Hs Hp] Hall IH]; intros s;
    [reflexivity|].
  simpl. unfold run_streamlit_app. rewrite Hs, Hp. rewrite IH.
  destruct inputs; [reflexivity|]. now destruct s.
Qed.

End IdleRuns.

(** ** The further properties at concrete inputs *)

Section MoreInstances.

Import PyStr OsPath Pathlib Fs Ingest Listing Notions IngestExamples.

(** The storage directory has been removed behind the back of the
    backend: the request is answered with a 500 that quotes the error of
    the open. *)
Example upload_without_storage :
  fst <$> upload (req "video.mp4" [b 1])
                 (mkWorld ["srv"] (<[ ["srv"] := Dir ]> ∅) quiet_faults [])
  = Some (HTTPException 500
            "Failed to save file: [Errno 2] No such file or directory").
Proof. vm_compute. reflexivity. Qed.

Example listing_sorted :
  files (set_fs w2 (<[ ["srv"; "uploads"; "a.mkv"] := File [] ]> (fs w2)))
  = Ok ["a.mkv"; "video(1).mp4"; "video.mp4"].
Proof. vm_compute. reflexivity. Qed.

Example same_name_three_times :
  fst <$> uploads [req "clip.mov" [b 1]; req "x/clip.mov" []; req "clip.mov" [b 2; b 3]] w0
  = Some [JSONResponse "clip.mov" 1; JSONResponse "clip(1).mov" 0;
          JSONResponse "clip(2).mov" 2].
Proof. vm_compute. reflexivity. Qed.

Lemma w0_upload_first :
  upload (req "video.mp4" [b 1]) w0 = Some (JSONResponse "video.mp4" 1, w0_after).
Proof. vm_compute. reflexivity. Defined.

Lemma upload_preserves_ready_instance :
  ready w0
  /\ upload (req "video.mp4" [b 1]) w0 = Some (JSONResponse "video.mp4" 1, w0_after)
  /\ ready w0_after.
Proof.
  split; [exact w0_ready|]. split; [exact w0_upload_first|].
  exact (upload_preserves_ready _ _ _ _ w0_ready w0_upload_first).
Defined.

Lemma upload_keeps_earlier_instance :
  ready w0
  /\ upload (req "video.mp4" [b 1]) w0 = Some (JSONResponse "video.mp4" 1, w0_after)
  /\ (exists resp2 w2', upload (req "video.mp4" [b 2]) w0_after = Some (resp2, w2')
        /\ fs w2' !! (storage w0 ++ ["video.mp4"]) = Some (File [b 1])).
Proof.
  split; [exact w0_ready|]. split; [exact w0_upload_first|].
  assert (E : exists resp2 w2', upload (req "video.mp4" [b 2]) w0_after = Some (resp2, w2'))
    by (vm_compute; eauto).
  destruct E as (resp2 & w2' & E). exists resp2, w2'. split; [exact E|].
  exact (proj1 (upload_keeps_earlier _ _ _ _ _ _ _ _ w0_ready w0_upload_first E)).
Defined.

Lemma files_spec_instance :
  ready w1 /\ exists names, files w1 = Ok names /\ NoDup names.
Proof.
  split; [exact w1_ready|].
  destruct (files_spec w1 w1_ready) as (names & Hf & _ & Hnd & _).
  exists names. auto.
Defined.

Lemma upload_then_listed_instance :
  ready w0
  /\ upload (req "video.mp4" [b 1]) w0 = Some (JSONResponse "video.mp4" 1, w0_after)
  /\ exists after, files w0_after = Ok after /\ "video.mp4" ∈ after.
Proof.
  split; [exact w0_ready|]. split; [exact w0_upload_first|].
  destruct (upload_then_listed _ _ _ _ _ w0_ready w0_upload_first)
    as (before & after & _ & Hf & _ & Hin & _).
  exists after. split; [exact Hf|]. apply Hin. now left.
Defined.

Lemma failed_upload_not_listed_instance :
  ready w_full /\ unlink_fault (faults w_full) = None
  /\ exists detail w',
       upload (req_slow "a.bin" [b 1; b 2; b 3; b 4; b 5]) w_full
       = Some (HTTPException 500 detail, w')
       /\ files w' = files w_full.
Proof.
  split; [exact w_full_ready|]. split; [reflexivity|].
  assert (E : exists detail w',
             upload (req_slow "a.bin" [b 1; b 2; b 3; b 4; b 5]) w_full
             = Some (HTTPException 500 detail, w'))
    by (vm_compute; eauto).
  destruct E as (detail & w' & E). exists detail, w'. split; [exact E|].
  exact (proj1 (proj2 (failed_upload_not_listed _ _ _ _ _ w_full_ready eq_refl E))).
Defined.

Lemma proper_video : proper "video.mp4".
Proof. repeat split; try discriminate. Defined.

Lemma video_path_of_entry_instance :
  Forall proper (Relay.cwd RelayExamples.e0)
  /\ proper (Relay.selected_file RelayExamples.click_start)
  /\ Relay.selected_file RelayExamples.click_start <> "-- pilih --"
  /\ Relay.video_path RelayExamples.e0 RelayExamples.click_start
     = Some "/srv/app/uploads/video.mp4".
Proof.
  assert (Hc : Forall proper (Relay.cwd RelayExamples.e0))
    by (repeat constructor; discriminate).
  assert (Hp : Relay.selected_file RelayExamples.click_start <> "-- pilih --")
    by discriminate.
  split; [exact Hc|]. split; [exact proper_video|]. split; [exact Hp|].
  exact (video_path_of_entry RelayExamples.e0 RelayExamples.click_start Hc proper_video Hp).
Defined.

Lemma uploaded_file_is_relay_source_instance :
  ready w0 /\ Forall proper (cwd w0)
  /\ Relay.cwd RelayExamples.e_srv = cwd w0
  /\ upload (req "video.mp4" [b 1]) w0 = Some (JSONResponse "video.mp4" 1, w0_after)
  /\ Relay.video_path RelayExamples.e_srv RelayExamples.click_start
     = Some "/srv/uploads/video.mp4".
Proof.
  assert (Hc : Forall proper (cwd w0)) by (repeat constructor; discriminate).
  split; [exact w0_ready|]. split; [exact Hc|]. split; [reflexivity|].
  split; [exact w0_upload_first|].
  refine (proj1 (uploaded_file_is_relay_source _ w0 w0_after "video.mp4" 1
                   RelayExamples.e_srv RelayExamples.click_start
                   w0_ready Hc eq_refl w0_upload_first eq_refl _)).
  discriminate.
Defined.

Lemma w0_child_free (x : string) : fs w0 !! (storage w0 ++ [x]) = None.
Proof.
  change (storage w0 ++ [x]) with ["srv"; "uploads"; x]. unfold w0. simpl fs.
  rewrite !lookup_insert_ne by discriminate. apply lookup_empty.
Defined.

Lemma placeholder_name_never_relayed_instance :
  ready w0 /\ open_fault (faults w0) = None
  /\ (forall x, ~ In (Some x) (write_faults (faults w0)))
  /\ fs w0 !! (storage w0 ++ ["-- pilih --"]) = None
  /\ Relay.selected_file RelayExamples.pick_placeholder = "-- pilih --"
  /\ (Relay.start RelayExamples.pick_placeholder Relay.Missing RelayExamples.e0 []).1.1.1
     = Relay.Missing.
Proof.
  assert (Hw : forall x, ~ In (Some x) (write_faults (faults w0))) by (intros x []).
  split; [exact w0_ready|]. split; [reflexivity|]. split; [exact Hw|].
  split; [exact (w0_child_free _)|]. split; [reflexivity|].
  rewrite (proj2 (placeholder_name_never_relayed [b 1] [] w0 RelayExamples.e0
                    RelayExamples.pick_placeholder Relay.Missing []
                    w0_ready eq_refl Hw (w0_child_free _) eq_refl)).
  reflexivity.
Defined.

Lemma repeated_uploads_count_up_instance :
  proper "video.mp4"
  /\ Forall (fun file => basename (filename file) = "video.mp4")
            [req "video.mp4" [b 1]; req "d/video.mp4" [b 2]]
  /\ taken_up_to "video.mp4" 0 w0
  /\ exists w',
       uploads [req "video.mp4" [b 1]; req "d/video.mp4" [b 2]] w0
       = Some ([JSONResponse "video.mp4" 1; JSONResponse "video(1).mp4" 1], w').
Proof.
  assert (Hall : Forall (fun file => basename (filename file) = "video.mp4")
                        [req "video.mp4" [b 1]; req "d/video.mp4" [b 2]])
    by (repeat constructor).
  assert (Hinv : taken_up_to "video.mp4" 0 w0).
  { split; [exact w0_ready|]. split; [split; [reflexivity|intros x []]|].
    split; [intros j Hj; lia|]. intros j _. apply w0_child_free. }
  split; [exact proper_video|]. split; [exact Hall|]. split; [exact Hinv|].
  destruct (repeated_uploads_count_up _ "video.mp4" 0 w0 proper_video Hall Hinv)
    as (w' & Hup & _).
  exists w'. exact Hup.
Defined.

End MoreInstances.

Section MoreRelayInstances.

Import Relay Launcher Notions RelayExamples.

Example launcher_child_ends_at_third_poll :
  main ["htjdg.py"] "python3" "htjdg.py" 4242 [StillRunning; StillRunning; HasEnded; CtrlC] true
  = Some [Print "Launcher: starting FastAPI backend thread...";
          StartFastapiThread; Sleep 1200;
          Print "Launcher: starting Streamlit process...";
          SpawnStreamlit ["python3"; "-m"; "streamlit"; "run"; "htjdg.py"; "--";
                          "--streamlit"; "--server.port"; "8501"];
          Print "Streamlit launched (PID 4242). Visit http://localhost:8501";
          Sleep 1000; Poll; Sleep 1000; Poll; Sleep 1000; Poll;
          Print "Streamlit process ended.";
          Terminate true; Print "Launcher exiting."].
Proof. vm_compute. reflexivity. Qed.

Lemma two_started_valid : valid (Popen 1) two_started.
Proof. intros pid [= <-]. vm_compute. lia. Defined.

Lemma lost_handle_never_killed_instance :
  valid (Popen 1) two_started /\ is_alive 0 two_started = true
  /\ Popen 1 <> Popen 0
  /\ is_alive 0 (reruns [click_stop; click_start; click_stop] (Popen 1) two_started).1.2
     = true.
Proof.
  assert (Hne : Popen 1 <> Popen 0) by discriminate.
  split; [exact two_started_valid|]. split; [reflexivity|]. split; [exact Hne|].
  exact (proj1 (proj2 (lost_handle_never_killed [click_stop; click_start; click_stop]
                         (Popen 1) two_started 0 two_started_valid eq_refl Hne))).
Defined.

Lemma start_then_stop_instance :
  valid Missing e0
  /\ start_btn click_start = true /\ stop_btn click_start = false
  /\ video_path e0 click_start = Some "/srv/app/uploads/video.mp4"
  /\ stream_key click_start <> "" /\ ffmpeg_on_path e0 = true
  /\ stop_only click_stop
  /\ (reruns [click_start; click_stop] Missing e0).1.1 = PyNone.
Proof.
  assert (Hv : valid Missing e0) by (intros pid; discriminate).
  assert (Hvp : video_path e0 click_start = Some "/srv/app/uploads/video.mp4")
    by (vm_compute; reflexivity).
  assert (Hk : stream_key click_start <> "") by discriminate.
  assert (Hs : stop_only click_stop) by (split; reflexivity).
  split; [exact Hv|]. split; [reflexivity|]. split; [reflexivity|].
  split; [exact Hvp|]. split; [exact Hk|]. split; [reflexivity|]. split; [exact Hs|].
  exact (proj1 (start_then_stop click_start click_stop Missing e0 _
                  Hv eq_refl eq_refl Hvp Hk eq_refl Hs)).
Defined.

Lemma launcher_supervision_instance :
  HasEnded <> StillRunning
  /\ main ["htjdg.py"] "python3" "htjdg.py" 7 [StillRunning; StillRunning] false = None.
Proof.
  assert (Ht : HasEnded <> StillRunning) by discriminate.
  split; [exact Ht|].
  destruct (launcher_supervision ["htjdg.py"] "python3" "htjdg.py" 7 2 HasEnded [] false Ht)
    as [_ H].
  apply H. vm_compute. intros Hin. 
  repeat (apply elem_of_cons in Hin as [Hin|Hin]; [discriminate|]).
  now apply elem_of_nil in Hin.
Defined.

Lemma reruns_without_button_instance :
  Forall no_button [idle; idle]
  /\ reruns [idle; idle] Missing e0 = (PyNone, e0, [[]; []])
  /\ reruns [idle; idle] (Popen 0) e0 = (Popen 0, e0, [[]; []]).
Proof.
  assert (H : Forall no_button [idle; idle]) by (repeat constructor).
  split; [exact H|]. split.
  - exact (reruns_without_button [idle; idle] Missing e0 H).
  - exact (reruns_without_button [idle; idle] (Popen 0) e0 H).
Defined.

End MoreRelayInstances.

(** ** The copy loop on the buffered writer *)

Section BufferedFacts.

Import Pathlib Fs Ingest Buffered.













End BufferedFacts.

(** ** The buffered copy loop at concrete requests *)

Section BufferedInstances.

Import Pathlib Fs Ingest Buffered IngestExamples.


(** With a buffer of two bytes the same body goes to the file at once:
    it is longer than the buffer. *)
Example long_chunk_written_through :
  (fun x => (x.1.1.2, x.2))
    <$> Buffered.write_loop 4 (mkWriter ["srv"; "uploads"; "a.bin"] 2 [])
                            (req "a.bin" [b 1; b 2; b 3]) 0 w_open
  = Some (mkWriter ["srv"; "uploads"; "a.bin"] 2 [],
          [BRead 4194304 [b 1; b 2; b 3];
           BRaw [b 1; b 2; b 3] true;
           BWrite [b 1; b 2; b 3] true;
           BRead 4194304 []]).
Proof. vm_compute. reflexivity. Qed.


End BufferedInstances.
